(** * Scientific Literature Intelligence: the storage access layer and
      the settings guard, embedded from [src/database/db_manager.py] and
      [src/src/config.py].

    The Python code is embedded shallowly.  A method that may raise and
    that reads or writes the outside world (file system, database file,
    open connections) becomes a function from a state to an outcome and
    a new state; [try]/[except]/[finally] and [with] blocks become
    combinators over such functions. *)

From Stdlib Require Import ZArith Bool Ascii String.
From stdpp Require Import base option list gmap strings pretty.

Local Open Scope string_scope.

(** ** Python exceptions and outcomes *)

Module Py.

(** The exception classes that the modelled code and the library calls
    it makes can raise.  [KeyboardInterrupt] stands for the classes that
    derive from [BaseException] only. *)
Inductive PyExc : Type :=
  | AttributeError (msg : string)
  | ValueError (msg : string)
  | FileExistsError
  | FileNotFoundError
  | NotADirectoryError
  | IsADirectoryError
  | PermissionError
  | OSError (msg : string)
  | UnicodeDecodeError (msg : string)
  | OperationalError (msg : string)
  | ProgrammingError (msg : string)
  | KeyboardInterrupt.

(** [isinstance(e, Exception)] *)
Definition is_Exception (e : PyExc) : bool :=
  match e with
  | KeyboardInterrupt => false
  | _ => true
  end.

(** [isinstance(e, OSError)] *)
Definition is_OSError (e : PyExc) : bool :=
  match e with
  | FileExistsError | FileNotFoundError
  | NotADirectoryError | IsADirectoryError
  | PermissionError | OSError _ => true
  | _ => false
  end.

Inductive Outcome (A : Type) : Type :=
  | Returned (a : A)
  | Raised (e : PyExc).
Arguments Returned {A} a.
Arguments Raised {A} e.

Definition is_Returned {A} (o : Outcome A) : bool :=
  match o with Returned _ => true | Raised _ => false end.

#[export] Instance Outcome_fmap : FMap Outcome :=
  fun A B f o =>
    match o with
    | Returned a => Returned (f a)
    | Raised e => Raised e
    end.

(** A computation over a state [St]. *)
Definition M (St A : Type) : Type := St -> Outcome A * St.

Definition ret {St A} (a : A) : M St A := fun s => (Returned a, s).

Definition raise {St A} (e : PyExc) : M St A := fun s => (Raised e, s).

Definition bind {St A B} (m : M St A) (k : A -> M St B) : M St B :=
  fun s =>
    match m s with
    | (Returned a, s') => k a s'
    | (Raised e, s') => (Raised e, s')
    end.

(** The statement [pass]. *)
Definition pass {St} : M St unit := ret tt.

(** [try: m  except ...].  [clauses e] is the handler of the first
    [except] clause that matches [e], if one does; an exception that no
    clause matches propagates. *)
Definition try_except {St A} (m : M St A)
    (clauses : PyExc -> option (M St A)) : M St A :=
  fun s =>
    match m s with
    | (Raised e, s') =>
        match clauses e with
        | Some h => h s'
        | None => (Raised e, s')
        end
    | r => r
    end.

(** [try: m  except Exception as e: h e].  A handler that ends in a bare
    [raise] is written [fun e => ... ;; raise e]. *)
Definition try_except_Exception {St A} (m : M St A) (h : PyExc -> M St A)
  : M St A :=
  try_except m (fun e => if is_Exception e then Some (h e) else None).

(** [try: m  finally: f].  The [finally] block always runs; when it
    raises, its exception replaces the pending outcome. *)
Definition try_finally {St A} (m : M St A) (f : M St unit) : M St A :=
  fun s =>
    match m s with
    | (r, s') =>
        match f s' with
        | (Returned _, s'') => (r, s'')
        | (Raised e, s'') => (Raised e, s'')
        end
    end.

End Py.

Export Py.

Declare Scope py_scope.
Delimit Scope py_scope with py.
Notation "'let*' x := m 'in' k" := (bind m (fun x => k))
  (at level 10, x name, m at level 100, k at level 200) : py_scope.
Notation "m ;; k" := (bind m (fun _ => k))
  (at level 100, k at level 200, right associativity) : py_scope.

(** ** [src/src/config.py]: the production guard of [Settings] *)

Module Config.

(** [str.lower] on the ASCII range: [A]..[Z] map to [a]..[z], every
    other byte is kept. *)
Definition ascii_lower (c : ascii) : ascii :=
  let n := Ascii.nat_of_ascii c in
  if (65 <=? n)%nat && (n <=? 90)%nat
  then Ascii.ascii_of_nat (n + 32)
  else c.

Fixpoint str_lower (s : string) : string :=
  match s with
  | EmptyString => EmptyString
  | String c s' => String (ascii_lower c) (str_lower s')
  end.

(** [x in (a, b, ...)] on strings. *)
Definition str_in (x : string) (l : list string) : bool :=
  existsb (String.eqb x) l.

Record SecuritySettings : Type := {
  secret_key : string;
  allowed_hosts : list string;
  jwt_secret_key : option string;
  jwt_algorithm : string;
  jwt_expiration_hours : Z
}.

Definition dev_secret_key : string := "dev-secret-key-change-in-production".

(** The defaults of the [Field] declarations of [SecuritySettings]. *)
Definition SecuritySettings_default : SecuritySettings := {|
  secret_key := dev_secret_key;
  allowed_hosts := ["localhost"; "127.0.0.1"];
  jwt_secret_key := None;
  jwt_algorithm := "HS256";
  jwt_expiration_hours := 24
|}.

(** The fields of [Settings] that [model_post_init] and the two
    environment properties read. *)
Record Settings : Type := {
  environment : string;
  debug : bool;
  log_level : string;
  security : SecuritySettings
}.

Definition is_development (self : Settings) : bool :=
  str_in (str_lower (environment self)) ["development"; "dev"].

Definition is_production (self : Settings) : bool :=
  str_in (str_lower (environment self)) ["production"; "prod"].

Definition model_post_init (self : Settings) : Outcome unit :=
  if is_production self then
    if String.eqb (secret_key (security self)) dev_secret_key then
      Raised (ValueError "SECRET_KEY must be changed in production")
    else if debug self then
      Raised (ValueError "DEBUG must be False in production")
    else Returned tt
  else Returned tt.

(** Construction of a [Settings] value from validated field values:
    pydantic builds the object and then calls [model_post_init]; an
    exception raised there leaves the constructor.  Pydantic reports a
    [ValueError] of [model_post_init] as its [ValidationError], a
    subclass of [ValueError] whose text quotes the message among other
    things: of the exception of the constructor the model keeps the
    class, and the message is that of the cause, not the text. *)
Definition Settings_construct (fields : Settings) : Outcome Settings :=
  match model_post_init fields with
  | Returned _ => Returned fields
  | Raised e => Raised e
  end.

(** Two strings are equal up to the case of their ASCII letters. *)
Definition eq_ignore_case (a b : string) : Prop :=
  str_lower a = str_lower b.

(** The environment is "production" or "prod", in any letter case. *)
Definition names_production (env : string) : Prop :=
  eq_ignore_case env "production" \/ eq_ignore_case env "prod".

Definition prod_debug_settings : Settings := {|
  environment := "Prod"; debug := true; log_level := "INFO";
  security := {| secret_key := "s3cr3t"; allowed_hosts := [];
                 jwt_secret_key := None; jwt_algorithm := "HS256";
                 jwt_expiration_hours := 24 |}
|}.

Definition dev_default_settings : Settings := {|
  environment := "development"; debug := true; log_level := "INFO";
  security := SecuritySettings_default
|}.

End Config.

(** ** The outside world: file system, database file, connections *)

Module Pathlib.

(** A path is the list of its components, innermost first, so that the
    parent of a path is its tail.  As in pathlib a component [..] is
    kept as it is written; it is the file system that resolves it, and
    the file system of this model does not: what is proved of the
    entries made is proved of paths without such a component
    ([FsSpec.plain]).  The empty path is the anchor (the root, or the
    working directory), which is its own parent and always exists as a
    directory. *)
Abbreviation Path := (list string) (only parsing).

(** Why a regular file cannot be read as text: the process may not open
    it, or its bytes are no text in the encoding in use. *)
Inductive ReadFailure : Type :=
  | NotPermitted
  | NotDecodable.

(** Why the operating system refuses the process at a path where no
    usable entry is: no permission, a name or path that is too long, no
    space left, a file system mounted read-only, a symbolic link whose
    target is missing. *)
Inductive Refusal : Type :=
  | PermissionDenied
  | NameTooLong
  | NoSpaceLeft
  | ReadOnly
  | DanglingLink.

(** What the file system holds at a path: a directory, a regular file
    that reads as the text [content], a regular file that cannot be read
    as text, or, where no usable entry is, the mark that the operating
    system refuses the process there: [os.mkdir] fails at such a path,
    and so does looking the path up when the refusal concerns the
    look-up.  A path without a node and without a mark is free: nothing
    is there and a directory can be made.  A symbolic link counts as
    what it points to. *)
Inductive Node : Type :=
  | Dir
  | File (content : string)
  | Unreadable (why : ReadFailure)
  | Refused (why : Refusal).

#[export] Instance ReadFailure_eq_dec : EqDecision ReadFailure.
Proof. solve_decision. Defined.

#[export] Instance Refusal_eq_dec : EqDecision Refusal.
Proof. solve_decision. Defined.

#[export] Instance Node_eq_dec : EqDecision Node.
Proof. solve_decision. Defined.

Definition parent (p : Path) : Path := tail p.

(** [p / name] *)
Definition joinpath (p : Path) (name : string) : Path := name :: p.

(** [Path(s)]: the components of [s] between slashes; empty components
    and [.] are dropped. *)
Definition push_part (cur : string) (acc : Path) : Path :=
  if String.eqb cur "" || String.eqb cur "." then acc else cur :: acc.

Fixpoint parse_parts (s cur : string) (acc : Path) : Path :=
  match s with
  | EmptyString => push_part cur acc
  | String c s' =>
      if Ascii.eqb c "/"%char
      then parse_parts s' "" (push_part cur acc)
      else parse_parts s' (cur ++ String c "") acc
  end.

Definition of_string (s : string) : Path := parse_parts s "" [].

(** What a path names in a file system. *)
Definition node_at (fs : gmap (list string) Node) (p : Path) : option Node :=
  match p with
  | [] => Some Dir
  | _ => fs !! p
  end.

Definition is_dir_in (fs : gmap (list string) Node) (p : Path) : bool :=
  match node_at fs p with
  | Some Dir => true
  | _ => false
  end.

(** Something exists at the path: a directory or a regular file. *)
Definition exists_in (fs : gmap (list string) Node) (p : Path) : bool :=
  match node_at fs p with
  | Some Dir | Some (File _) | Some (Unreadable _) => true
  | Some (Refused _) | None => false
  end.

(** A component holds the byte zero. *)
Fixpoint holds_nul (part : string) : bool :=
  match part with
  | EmptyString => false
  | String c rest => Ascii.eqb c "000"%char || holds_nul rest
  end.

Definition has_nul (p : Path) : bool := existsb holds_nul p.

(** The limits of the file system on the bytes of one name and of a
    whole path string. *)
Definition name_max : nat := 255.
Definition path_max : nat := 4095.

(** The last name of the path is longer than a name can be. *)
Definition name_too_long (p : Path) : bool :=
  match p with
  | [] => false
  | name :: _ => (name_max <? String.length name)%nat
  end.

(** The bytes of the path string without its root: the names and a
    slash after each. *)
Fixpoint path_bytes (p : Path) : nat :=
  match p with
  | [] => 0
  | name :: up => S (String.length name + path_bytes up)
  end.

(** The exception of a refusal. *)
Definition refusal_error (why : Refusal) : PyExc :=
  match why with
  | PermissionDenied => PermissionError
  | NameTooLong => OSError "[Errno 36] File name too long"
  | NoSpaceLeft => OSError "[Errno 28] No space left on device"
  | ReadOnly => OSError "[Errno 30] Read-only file system"
  | DanglingLink => FileExistsError
  end.

(** The refusals that also stop a look-up ([stat]) of the path. *)
Definition stops_lookup (why : Refusal) : bool :=
  match why with
  | PermissionDenied | NameTooLong => true
  | NoSpaceLeft | ReadOnly | DanglingLink => false
  end.

(** The exception of reading a file that cannot be read as text. *)
Definition read_error (why : ReadFailure) : PyExc :=
  match why with
  | NotPermitted => PermissionError
  | NotDecodable => UnicodeDecodeError "invalid start byte"
  end.

End Pathlib.

Module Sqlite3.

(** A row maps column names to values, in column order. *)
Definition Row : Type := list (string * string).

(** The statements that the modelled callers send. *)
Inductive Sql : Type :=
  | BEGIN
  | COMMIT
  | ROLLBACK
  | INSERT (table : string) (row : Row)
  | SELECT (table : string).

(** A connection handle. *)
Definition Connection : Type := nat.

(** The calls received by connection objects, oldest first. *)
Inductive Call : Type :=
  | CallExecute (sql : Sql)
  | CallCommit
  | CallRollback
  | CallClose.

#[export] Instance Sql_eq_dec : EqDecision Sql.
Proof. solve_decision. Defined.

#[export] Instance Call_eq_dec : EqDecision Call.
Proof. solve_decision. Defined.

(** An open transaction holds its own copy of the tables; the copy
    replaces the committed tables on commit and is dropped on rollback
    (one writer at a time). *)
Record ConnState : Type := {
  closed : bool;
  txn : option (gmap string (list Row))
}.

End Sqlite3.

Export Sqlite3.

Record World : Type := {
  files : gmap (list string) Pathlib.Node;
  (** committed content of the database file: table name to rows *)
  tables : gmap string (list Row);
  indexes : gset string;
  pragmas : gmap string string;
  conns : gmap nat ConnState;
  trace : list (Connection * Call);
  (** wall clock, in microseconds; it is read, never advanced: the
      passage of time is outside the model *)
  clock : Z
}.

Definition set_files (f : gmap (list string) Pathlib.Node) (w : World) : World :=
  {| files := f; tables := tables w; indexes := indexes w;
     pragmas := pragmas w; conns := conns w; trace := trace w;
     clock := clock w |}.

Definition set_tables (t : gmap string (list Row)) (w : World) : World :=
  {| files := files w; tables := t; indexes := indexes w;
     pragmas := pragmas w; conns := conns w; trace := trace w;
     clock := clock w |}.

Definition set_conn (c : Connection) (st : ConnState) (w : World) : World :=
  {| files := files w; tables := tables w; indexes := indexes w;
     pragmas := pragmas w; conns := <[c := st]> (conns w);
     trace := trace w; clock := clock w |}.

Definition record_call (c : Connection) (call : Call) (w : World) : World :=
  {| files := files w; tables := tables w; indexes := indexes w;
     pragmas := pragmas w; conns := conns w;
     trace := trace w ++ [(c, call)]; clock := clock w |}.

(** A state that contains the world: the world alone, or the world next
    to the fields of a Python object that the running method mutates. *)
Class HasWorld (St : Type) : Type := {
  world_of : St -> World;
  with_world : World -> St -> St
}.

#[export] Instance HasWorld_World : HasWorld World :=
  {| world_of := fun w => w; with_world := fun w _ => w |}.

#[export] Instance HasWorld_pair (X : Type) : HasWorld (X * World) :=
  {| world_of := snd; with_world := fun w s => (fst s, w) |}.

Definition liftW {St} `{HasWorld St} {A} (m : M World A) : M St A :=
  fun s =>
    match m (world_of s) with
    | (r, w') => (r, with_world w' s)
    end.

Local Open Scope py_scope.

(** *** File-system calls *)

Module Os.

Import Pathlib.

(** [os.mkdir(p)].  A path with a zero byte is rejected before the
    operating system is asked; an existing entry, a missing parent and a
    parent that is no directory are errors; where the parent is a
    directory the entry is made unless the operating system refuses or
    the name is too long.  The limit on the whole path string, which
    depends on the root and on the working directory, is a refusal like
    the others. *)
Definition mkdir (p : Path) : M World unit :=
  fun w =>
    if has_nul p then (Raised (ValueError "embedded null byte"), w)
    else if exists_in (files w) p then (Raised FileExistsError, w)
    else
      match node_at (files w) (parent p) with
      | Some Dir =>
          match node_at (files w) p with
          | Some (Refused why) => (Raised (refusal_error why), w)
          | _ =>
              if name_too_long p
              then (Raised (refusal_error NameTooLong), w)
              else (Returned tt, set_files (<[p := Dir]> (files w)) w)
          end
      | Some (File _) | Some (Unreadable _) =>
          (Raised NotADirectoryError, w)
      | Some (Refused _) | None => (Raised FileNotFoundError, w)
      end.

(** [Path.is_dir()] *)
Definition is_dir (p : Path) : M World bool :=
  fun w => (Returned (is_dir_in (files w) p), w).

(** [Path.exists()]: a missing entry is answered with [False]; an error
    of the look-up that is not of the not-found kind is raised. *)
Definition exists_ (p : Path) : M World bool :=
  fun w =>
    match node_at (files w) p with
    | Some (Refused why) =>
        if stops_lookup why then (Raised (refusal_error why), w)
        else (Returned false, w)
    | _ => (Returned (exists_in (files w) p), w)
    end.

(** [Path.mkdir(parents=False, exist_ok=exist_ok)] *)
Definition Path_mkdir_flat (exist_ok : bool) (p : Path) : M World unit :=
  try_except (mkdir p) (fun e =>
    match e with
    | FileNotFoundError => Some (raise e)
    | _ =>
        if is_OSError e then
          Some (let* d := is_dir p in
                if negb exist_ok || negb d then raise e else ret tt)
        else None
    end).

(** [Path.mkdir(parents=parents, exist_ok=exist_ok)], as pathlib writes
    it: try [os.mkdir]; when the parent is missing and [parents] is set,
    make the parent with [parents=True, exist_ok=True] and retry without
    [parents]; any other [OSError] is swallowed only when [exist_ok] is
    set and the path is a directory. *)
Fixpoint Path_mkdir (parents exist_ok : bool) (p : Path) {struct p}
  : M World unit :=
  try_except (mkdir p) (fun e =>
    match e with
    | FileNotFoundError =>
        Some (match p with
              | [] => raise e
              | _ :: up =>
                  if negb parents then raise e
                  else Path_mkdir true true up ;;
                       Path_mkdir_flat exist_ok p
              end)
    | _ =>
        if is_OSError e then
          Some (let* d := is_dir p in
                if negb exist_ok || negb d then raise e else ret tt)
        else None
    end).

(** [with open(p, 'r') as f: f.read()] *)
Definition read_text (p : Path) : M World string :=
  fun w =>
    match node_at (files w) p with
    | Some (File content) => (Returned content, w)
    | Some Dir => (Raised IsADirectoryError, w)
    | Some (Unreadable why) => (Raised (read_error why), w)
    | Some (Refused _) | None => (Raised FileNotFoundError, w)
    end.

(** [datetime.now()], in microseconds *)
Definition datetime_now : M World Z :=
  fun w => (Returned (clock w), w).

End Os.

(** *** Calls on [sqlite3] connections *)

Module Conn.

Definition state_of (c : Connection) (w : World) : ConnState :=
  default {| closed := true; txn := None |} (conns w !! c).

Definition closed_error : PyExc :=
  ProgrammingError "Cannot operate on a closed database.".

Definition no_such_table (t : string) : PyExc :=
  OperationalError ("no such table: " ++ t).

Definition idle : ConnState := {| closed := false; txn := None |}.

Definition writing (t : gmap string (list Row)) : ConnState :=
  {| closed := false; txn := Some t |}.

(** The tables a connection sees: its transaction's copy when it has
    one, the committed tables otherwise. *)
Definition view (st : ConnState) (w : World) : gmap string (list Row) :=
  default (tables w) (txn st).

(** [sqlite3.connect(...)]: a new handle with no transaction. *)
Definition connect : M World Connection :=
  fun w =>
    let c := fresh (dom (conns w)) in
    (Returned c, set_conn c idle w).

(** [conn.execute(sql)] followed by [fetchall()].  A data-changing
    statement outside a transaction opens one implicitly. *)
Definition execute (c : Connection) (sql : Sql) : M World (list Row) :=
  fun w0 =>
    let w := record_call c (CallExecute sql) w0 in
    let st := state_of c w in
    if closed st then (Raised closed_error, w) else
    match sql with
    | BEGIN =>
        match txn st with
        | Some _ =>
            (Raised (OperationalError
               "cannot start a transaction within a transaction"), w)
        | None => (Returned [], set_conn c (writing (tables w)) w)
        end
    | COMMIT =>
        match txn st with
        | Some t => (Returned [], set_conn c idle (set_tables t w))
        | None =>
            (Raised (OperationalError
               "cannot commit - no transaction is active"), w)
        end
    | ROLLBACK =>
        match txn st with
        | Some _ => (Returned [], set_conn c idle w)
        | None =>
            (Raised (OperationalError
               "cannot rollback - no transaction is active"), w)
        end
    | INSERT t row =>
        match view st w !! t with
        | Some rows =>
            (Returned [],
             set_conn c (writing (<[t := (rows ++ [row])%list]> (view st w))) w)
        | None => (Raised (no_such_table t), w)
        end
    | SELECT t =>
        match view st w !! t with
        | Some rows => (Returned rows, w)
        | None => (Raised (no_such_table t), w)
        end
    end.

(** [conn.commit()]: nothing to do without an open transaction. *)
Definition commit (c : Connection) : M World unit :=
  fun w0 =>
    let w := record_call c CallCommit w0 in
    let st := state_of c w in
    if closed st then (Raised closed_error, w) else
    match txn st with
    | Some t => (Returned tt, set_conn c idle (set_tables t w))
    | None => (Returned tt, w)
    end.

(** [conn.rollback()] *)
Definition rollback (c : Connection) : M World unit :=
  fun w0 =>
    let w := record_call c CallRollback w0 in
    let st := state_of c w in
    if closed st then (Raised closed_error, w)
    else (Returned tt, set_conn c idle w).

(** [conn.close()]: an uncommitted transaction is lost; closing twice is
    harmless. *)
Definition close (c : Connection) : M World unit :=
  fun w0 =>
    let w := record_call c CallClose w0 in
    (Returned tt, set_conn c {| closed := true; txn := None |} w).

(** [if conn:] on a value that is [None] or a connection object. *)
Definition truthy (conn : option Connection) : bool :=
  match conn with Some _ => true | None => false end.

(** [conn.attr(...)] on a value that is [None] or a connection object. *)
Definition call {St A} (conn : option Connection) (attr : string)
    (method : Connection -> M St A) : M St A :=
  match conn with
  | Some c => method c
  | None =>
      raise (AttributeError
               ("'NoneType' object has no attribute '" ++ attr ++ "'"))
  end.

End Conn.

(** ** [src/database/db_manager.py] *)

Module DatabaseManager.

Record t : Type := {
  db_path : Pathlib.Path;
  enable_wal : bool;
  _connection : option Connection;
  logger : option string
}.

Section Scopes.

Context {St : Type} `{HasWorld St} {A : Type}.

(** The body of [get_connection], with the value that the assignment
    inside the [try] block gives to [conn] as a parameter.  The
    operation run inside the [with] block is [body]; [yield conn]
    passes it [conn], and what the operation raises is raised at the
    [yield]. *)
Definition get_connection_from (created : option Connection)
    (body : option Connection -> M St A) : M St A :=
  let conn := created in
  try_finally
    (try_except_Exception
       (pass ;;
        body conn)
       (fun e =>
          (if Conn.truthy conn
           then liftW (Conn.call conn "rollback" Conn.rollback)
           else pass) ;;
          raise e))
    (if Conn.truthy conn
     then liftW (Conn.call conn "close" Conn.close)
     else pass).

(** [get_connection]: the source assigns [conn = None]. *)
Definition get_connection (self : t)
    (body : option Connection -> M St A) : M St A :=
  get_connection_from None body.

(** What [get_transaction] runs inside [with self.get_connection() as
    conn:].  The statements before and after [yield conn] and the
    first statement of the handler are [pass]. *)
Definition transaction_block (body : option Connection -> M St A)
    (conn : option Connection) : M St A :=
  try_except_Exception
    (pass ;;
     let* result := body conn in
     pass ;;
     ret result)
    (fun e =>
       pass ;;
       raise e).

Definition get_transaction (self : t)
    (body : option Connection -> M St A) : M St A :=
  get_connection self (transaction_block body).

(** [get_transaction] over [get_connection_from]. *)
Definition get_transaction_from (created : option Connection)
    (body : option Connection -> M St A) : M St A :=
  get_connection_from created (transaction_block body).

End Scopes.

Definition _initialize_database (self : t) : M World unit :=
  Os.Path_mkdir true true (Pathlib.parent (db_path self)) ;;
  get_connection self (fun conn =>
    pass ;;
    pass ;;
    let schema_path :=
      Pathlib.joinpath (Pathlib.parent (db_path self)) "schema.sql" in
    let* present := Os.exists_ schema_path in
    if present then
      let* schema_sql := Os.read_text schema_path in
      pass
    else ret tt).

Definition __init__ (db_path : string) (enable_wal : bool) : M World t :=
  let self := {| db_path := Pathlib.of_string db_path;
                 enable_wal := enable_wal;
                 _connection := None;
                 logger := None |} in
  _initialize_database self ;;
  ret self.

End DatabaseManager.

Module SchemaValidator.

Record t : Type := { db_manager : DatabaseManager.t }.

Definition __init__ (db_manager : DatabaseManager.t) : t :=
  {| db_manager := db_manager |}.

(** The dictionary that [validate_schema] returns; its keys are fixed. *)
Record ValidationReport : Type := {
  valid : bool;
  issues : list string;
  table_count : Z;
  index_count : Z;
  fts_enabled : bool
}.

Definition expected_tables : list string :=
  ["authors"; "papers"; "datasets"; "paper_authors";
   "citations"; "paper_datasets"; "research_trends";
   "collaboration_networks"].

Definition validate_schema (self : t) : M World ValidationReport :=
  let validation_result :=
    {| valid := false; issues := []; table_count := 0;
       index_count := 0; fts_enabled := false |} in
  DatabaseManager.get_connection (db_manager self) (fun conn =>
    let expected := expected_tables in
    pass ;;
    pass ;;
    pass) ;;
  ret validation_result.

End SchemaValidator.

Module QueryPerformanceMonitor.

Section Monitor.

(** The type of the values of the [query_stats] dictionary, which the
    source leaves open. *)
Variable Stat : Type.

Record t : Type := {
  db_manager : DatabaseManager.t;
  query_stats : gmap string Stat
}.

Definition __init__ (db_manager : DatabaseManager.t) : t :=
  {| db_manager := db_manager; query_stats := ∅ |}.

(** [self], the first component of a method's state. *)
Definition get_self : M (t * World) t :=
  fun s => (Returned (fst s), s).

Definition execute_with_monitoring (query : string)
    (params : option (list string)) : M (t * World) (list Row) :=
  let* self := get_self in
  let* start_time := liftW Os.datetime_now in
  try_except_Exception
    (DatabaseManager.get_connection (db_manager self) (fun conn =>
       pass ;;
       let results : list Row := [] in
       let* now := liftW Os.datetime_now in
       let execution_time := (now - start_time)%Z in
       ret results))
    (fun e => raise e).

End Monitor.

Arguments db_manager {Stat} _.
Arguments query_stats {Stat} _.
Arguments __init__ {Stat} _.
Arguments execute_with_monitoring {Stat} _ _.

End QueryPerformanceMonitor.

Module ConnectionPool.

Record t : Type := {
  db_path : string;
  pool_size : Z
}.

Definition __init__ (db_path : string) (pool_size : Z) : t :=
  {| db_path := db_path; pool_size := pool_size |}.

(** The methods end in [pass]: they return [None]. *)
Definition get_connection : M (t * World) (option Connection) :=
  pass ;;
  ret None.

Definition return_connection (conn : option Connection)
  : M (t * World) unit :=
  pass.

(** [n] calls of [get_connection] in a row, none of them returned. *)
Fixpoint acquire_times (n : nat) : M (t * World) (list (option Connection)) :=
  match n with
  | O => ret []
  | S n' =>
      let* c := get_connection in
      let* cs := acquire_times n' in
      ret (c :: cs)
  end.

End ConnectionPool.

(** ** Vocabulary for statements about the file system *)

Module FsSpec.

Import Pathlib.

(** Every entry of the file system lies in a directory. *)
Definition well_formed (fs : gmap (list string) Node) : Prop :=
  forall p, exists_in fs p = true -> is_dir_in fs (parent p) = true.

(** The path or one of its ancestors is a regular file. *)
Fixpoint blocked (fs : gmap (list string) Node) (p : Path) : bool :=
  match node_at fs p with
  | Some (File _) | Some (Unreadable _) => true
  | _ =>
      match p with
      | [] => false
      | _ :: up => blocked fs up
      end
  end.

(** The operating system refuses the path or one of its ancestors. *)
Fixpoint refused (fs : gmap (list string) Node) (p : Path) : bool :=
  match node_at fs p with
  | Some (Refused _) => true
  | _ =>
      match p with
      | [] => false
      | _ :: up => refused fs up
      end
  end.

(** The path is within the limits on lengths: no name is too long, and
    the path string is short enough to leave room for a root before it
    and for the name of the schema script after it. *)
Definition fits (p : Path) : bool :=
  forallb (fun name => (String.length name <=? name_max)%nat) p
  && (path_bytes p + 16 <=? path_max)%nat.

(** Nothing stands in the way of making the directory: no zero byte in
    the path, lengths within the limits, no regular file and no refusal
    at the path or above it. *)
Definition clear (fs : gmap (list string) Node) (p : Path) : bool :=
  negb (has_nul p) && fits p
  && negb (blocked fs p) && negb (refused fs p).

(** No component of the path is [..]: the path names its entry without
    stepping back. *)
Definition plain (p : Path) : Prop :=
  Forall (fun part => part <> "..") p.


(** The outcome of looking the schema script up and reading it when it
    is there. *)
Definition schema_load (fs : gmap (list string) Node) (p : Path)
  : Outcome unit :=
  match node_at fs p with
  | Some Dir => Raised IsADirectoryError
  | Some (Unreadable why) => Raised (read_error why)
  | Some (Refused why) =>
      if stops_lookup why then Raised (refusal_error why) else Returned tt
  | Some (File _) | None => Returned tt
  end.

(** The file system with a directory added at the path and at each of
    its ancestors where nothing exists. *)
Fixpoint make_dirs (p : Path) (fs : gmap (list string) Node)
  : gmap (list string) Node :=
  match p with
  | [] => fs
  | _ :: up =>
      let fs' := make_dirs up fs in
      match fs' !! p with
      | Some _ => fs'
      | None => <[p := Dir]> fs'
      end
  end.

(** A computation that changes at most the file system. *)
Definition only_files {A} (m : M World A) : Prop :=
  forall w, snd (m w) = set_files (files (snd (m w))) w.

(** The second world comes from the first by making directories, at the
    path or above it, where nothing was. *)
Definition grown (p : Path) (w w1 : World) : Prop :=
  w1 = set_files (files w1) w
  /\ forall q, files w1 !! q <> files w !! q ->
        q `suffix_of` p /\ files w !! q = None
        /\ files w1 !! q = Some Dir.

End FsSpec.

(** ** Scenarios *)

Module Scenario.

(** A database right after the schema script ran: every expected table
    and the full-text table exist and are empty. *)
Definition fresh_tables : gmap string (list Row) :=
  list_to_map
    ((fun t => (t, [] : list Row)) <$>
       (SchemaValidator.expected_tables ++ ["papers_fts"])%list).

Definition fresh_world : World := {|
  files := {[ ["data"] := Pathlib.Dir;
              ["lit.db"; "data"] := Pathlib.File "" ;
              ["schema.sql"; "data"] :=
                Pathlib.File "CREATE TABLE IF NOT EXISTS authors (name);" ]};
  tables := fresh_tables;
  indexes := {[ "idx_papers_year" ]};
  pragmas := {[ "journal_mode" := "delete"; "foreign_keys" := "0";
                "synchronous" := "2" ]};
  conns := ∅;
  trace := [];
  clock := 0
|}.

(** The same database after [DROP TABLE citations]. *)
Definition world_without_citations : World :=
  set_tables (delete "citations" fresh_tables) fresh_world.

(** A machine on which nothing was set up yet. *)
Definition blank_world : World := {|
  files := {[ ["data"] := Pathlib.Dir;
              ["schema.sql"; "data"] :=
                Pathlib.File "CREATE TABLE IF NOT EXISTS authors (name);" ]};
  tables := ∅;
  indexes := ∅;
  pragmas := {[ "journal_mode" := "delete"; "foreign_keys" := "0";
                "synchronous" := "2" ]};
  conns := ∅;
  trace := [];
  clock := 0
|}.


Definition manager : DatabaseManager.t := {|
  DatabaseManager.db_path := ["lit.db"; "data"];
  DatabaseManager.enable_wal := true;
  DatabaseManager._connection := None;
  DatabaseManager.logger := None
|}.

Definition ada : Row := [("name", "Ada Lovelace")].

(** [conn.execute("INSERT INTO authors ...")] *)
Definition insert_author (conn : option Connection) : M World unit :=
  Conn.call conn "execute" (fun c => Conn.execute c (INSERT "authors" ada)) ;;
  ret tt.

(** The same insertion, followed by an error before the scope ends. *)
Definition insert_author_then_fail (conn : option Connection)
  : M World unit :=
  insert_author conn ;;
  raise (ValueError "failure after the insert").

(** An operation that touches nothing. *)
Definition idle_operation (conn : option Connection) : M World unit :=
  pass.

(** An operation that fails at once. *)
Definition failing_operation (conn : option Connection) : M World unit :=
  raise (ValueError "failure").

(** What a connection opened now reads from [authors]. *)
Definition read_authors : M World (list Row) :=
  let* c := Conn.connect in
  Conn.execute c (SELECT "authors").

(** The calls of one kind in a trace. *)
Definition count_calls (call : Call) (tr : list (Connection * Call)) : nat :=
  length (filter (fun x => x.2 = call) tr).

End Scenario.

(** ** Python string methods, on ASCII text *)

Module PyStr.

(** [s.split(sep)] for a one-character separator: the pieces between
    the separators, empty pieces included. *)
Fixpoint split (sep : ascii) (s : string) : list string :=
  match s with
  | EmptyString => [""]
  | String c s' =>
      if Ascii.eqb c sep then "" :: split sep s'
      else match split sep s' with
           | piece :: rest => String c piece :: rest
           | [] => [String c ""]
           end
  end.

(** [sep.join(pieces)] *)
Fixpoint join (sep : ascii) (pieces : list string) : string :=
  match pieces with
  | [] => ""
  | [piece] => piece
  | piece :: rest => piece ++ String sep (join sep rest)
  end.

(** The ASCII characters for which [str.isspace] holds: tab, line feed,
    vertical tab, form feed, carriage return, the four separators
    [0x1c]..[0x1f] and the space. *)
Definition is_space (c : ascii) : bool :=
  let n := Ascii.nat_of_ascii c in
  ((9 <=? n)%nat && (n <=? 13)%nat)
  || ((28 <=? n)%nat && (n <=? 32)%nat).

(** Every character of the string is an ASCII one.  On such strings
    [strip] below is [str.strip]; beyond ASCII Python knows more white
    space (the no-break space, for one), which this model does not. *)
Fixpoint is_ascii (s : string) : bool :=
  match s with
  | EmptyString => true
  | String c s' => (Ascii.nat_of_ascii c <? 128)%nat && is_ascii s'
  end.

(** [s.lstrip()], [s.rstrip()] and [s.strip()] *)
Fixpoint lstrip (s : string) : string :=
  match s with
  | EmptyString => ""
  | String c s' => if is_space c then lstrip s' else s
  end.

Fixpoint rstrip (s : string) : string :=
  match s with
  | EmptyString => ""
  | String c s' =>
      match rstrip s' with
      | EmptyString => if is_space c then "" else String c ""
      | kept => String c kept
      end
  end.

Definition strip (s : string) : string := rstrip (lstrip s).

(** [c in s] for a character [c] *)
Fixpoint contains (c : ascii) (s : string) : bool :=
  match s with
  | EmptyString => false
  | String d s' => Ascii.eqb d c || contains c s'
  end.

(** [s.count(c)] for a character [c] *)
Fixpoint count (c : ascii) (s : string) : nat :=
  match s with
  | EmptyString => 0
  | String d s' => (if Ascii.eqb d c then 1 else 0) + count c s'
  end.

(** The string does not start with white space. *)
Definition no_leading_space (s : string) : Prop :=
  match s with
  | EmptyString => True
  | String c _ => is_space c = false
  end.

End PyStr.

(** ** [src/src/config.py]: the field validators *)

Module Validators.

(** The value that reaches [parse_allowed_hosts]: a string (from the
    environment) or a list of strings. *)
Inductive HostsInput : Type :=
  | HostsStr (v : string)
  | HostsList (v : list string).

(** [SecuritySettings.parse_allowed_hosts] *)
Definition parse_allowed_hosts (v : HostsInput) : list string :=
  match v with
  | HostsStr s => PyStr.strip <$> PyStr.split "," s
  | HostsList l => l
  end.

(** The root of a POSIX path string, as [pathlib] splits it off: empty
    for a relative path, [//] for exactly two leading slashes, [/] for
    one or for three and more. *)
Definition root_of (s : string) : string :=
  match s with
  | String "/" (String "/" (String "/" _)) => "/"
  | String "/" (String "/" _) => "//"
  | String "/" _ => "/"
  | _ => ""
  end.

(** [str(path)] for a path with the given root and components. *)
Definition render (root : string) (p : Pathlib.Path) : string :=
  if String.eqb root "" then
    match p with
    | [] => "."
    | _ => PyStr.join "/" (rev p)
    end
  else root ++ PyStr.join "/" (rev p).

(** [str(Path(v))] *)
Definition normalized (v : string) : string :=
  render (root_of v) (Pathlib.of_string v).

(** [DatabaseSettings.ensure_data_directory] *)
Definition ensure_data_directory (v : string) : M World string :=
  let path := Pathlib.of_string v in
  Os.Path_mkdir true true (Pathlib.parent path) ;;
  ret (render (root_of v) path).

(** [CacheSettings.ensure_cache_directory] *)
Definition ensure_cache_directory (v : string) : M World string :=
  let path := Pathlib.of_string v in
  Os.Path_mkdir true true path ;;
  ret (render (root_of v) path).

(** A host name as [parse_allowed_hosts] leaves it: no white space
    around it and no comma inside. *)
Definition clean_host (h : string) : Prop :=
  PyStr.strip h = h /\ PyStr.contains "," h = false.

(** A component that a parsed path can have: not empty, not [.], and
    without a slash. *)
Definition kept_part (part : string) : bool :=
  negb (String.eqb part "" || String.eqb part ".").

Definition valid_part (part : string) : Prop :=
  kept_part part = true /\ PyStr.contains "/" part = false.

End Validators.

(** ** The process: random numbers and standard output *)

Module Process.

(** The state of the [random] module is a source of numbers, [draws],
    of which [drawn] have been used.  The source is arbitrary: what is
    proved for every source holds for every outcome the generator can
    have. *)
Record t : Type := {
  draws : nat -> nat;
  drawn : nat;
  stdout : list string
}.

Definition State : Type := t * World.

Definition next_draw : M State nat :=
  fun s =>
    let p := fst s in
    (Returned (draws p (drawn p)),
     ({| draws := draws p; drawn := S (drawn p); stdout := stdout p |},
      snd s)).

(** [print(line)] *)
Definition print (line : string) : M State unit :=
  fun s =>
    let p := fst s in
    (Returned tt,
     ({| draws := draws p; drawn := drawn p;
         stdout := (stdout p ++ [line])%list |},
      snd s)).

(** [random.randint(a, b)]: a number from [a] to [b], both included. *)
Definition randint (a b : Z) : M State Z :=
  if (b <? a)%Z then raise (ValueError "empty range for randrange()")
  else
    let* d := next_draw in
    ret (a + Z.of_nat d mod (b - a + 1))%Z.

(** [k] elements taken one after the other from what is left of the
    pool. *)
Fixpoint take_distinct {A} (pool : list A) (k : nat) : M State (list A) :=
  match k with
  | O => ret []
  | S k' =>
      let* d := next_draw in
      let j := d mod length pool in
      match pool !! j with
      | Some x =>
          let* rest := take_distinct (delete j pool) k' in
          ret (x :: rest)
      | None => ret []
      end
  end.

(** [random.sample(population, k)]: [k] elements at distinct positions,
    in any order. *)
Definition sample {A} (population : list A) (k : Z) : M State (list A) :=
  if (k <? 0)%Z || (Z.of_nat (length population) <? k)%Z
  then raise (ValueError "Sample larger than population or is negative")
  else take_distinct population (Z.to_nat k).

(** [random.choice(seq)] on a list literal [first], [others...] *)
Definition choice {A} (first : A) (others : list A) : M State A :=
  let* d := next_draw in
  ret (default first ((first :: others) !! (d mod S (length others)))).

(** [str(e)] for an exception: its message; for the operating-system
    errors, whose text names the path, the text without the path. *)
Definition exc_str (e : PyExc) : string :=
  match e with
  | AttributeError msg | ValueError msg
  | OperationalError msg | ProgrammingError msg => msg
  | UnicodeDecodeError msg | OSError msg => msg
  | FileExistsError => "[Errno 17] File exists"
  | FileNotFoundError => "[Errno 2] No such file or directory"
  | NotADirectoryError => "[Errno 20] Not a directory"
  | IsADirectoryError => "[Errno 21] Is a directory"
  | PermissionError => "[Errno 13] Permission denied"
  | KeyboardInterrupt => ""
  end.

(** [for x in xs: acc = body(x, acc)] *)
Fixpoint for_each {St X Acc} (xs : list X) (body : X -> Acc -> M St Acc)
    (acc : Acc) : M St Acc :=
  match xs with
  | [] => ret acc
  | x :: xs' =>
      let* acc' := body x acc in
      for_each xs' body acc'
  end.

(** [range(n)] *)
Definition range (n : Z) : list Z := seqZ 0 n.

(** The second state differs from the first at most in how many random
    numbers were drawn: same world, same output, same source. *)
Definition only_drew (s s' : State) : Prop :=
  snd s' = snd s
  /\ stdout (fst s') = stdout (fst s)
  /\ draws (fst s') = draws (fst s).

End Process.

(** ** [src/database/sample_data_generator.py] *)

Module SampleDataGenerator.

Import Process.

Section Generator.

(** Calendar dates and the local calendar: the date and the year of a
    clock reading. *)
Variable Date : Type.
Variable date_of : Z -> Date.
Variable year_of : Z -> Z.

Record PaperData : Type := {
  title : string;
  abstract : string;
  authors : list string;
  publication_date : Date;
  journal : string;
  doi : string;
  citation_count : Z;
  keywords : list string
}.

(** The generator object.  Its [fake] attribute, a [Faker] object that
    no method reads, is left out. *)
Record t : Type := {
  db_manager : DatabaseManager.t;
  battery_keywords : list string;
  research_methods : list string;
  journals : list string
}.

Definition __init__ (db_manager : DatabaseManager.t) : t := {|
  db_manager := db_manager;
  battery_keywords :=
    ["lithium-ion"; "capacity"; "degradation"; "cycling"; "electrolyte"];
  research_methods :=
    ["electrochemical impedance"; "cycling tests"; "machine learning"];
  journals :=
    ["Journal of Power Sources"; "Nature Energy";
     "Advanced Energy Materials"]
|}.

(** An author profile is a dictionary; the loop body builds an empty
    one. *)
Definition generate_authors (self : t) (num_authors : Z)
  : list (gmap string string) :=
  let institutions :=
    ["MIT"; "Stanford University"; "University of Cambridge";
     "Toyota Research Institute"; "Tesla Inc."; "CATL"] in
  foldl (fun authors i =>
           let author : gmap string string := ∅ in
           (authors ++ [author])%list)
        [] (range num_authors).

Definition generate_realistic_abstract (self : t) (keywords : list string)
  : string := "".

Definition generate_paper_title (self : t) (keywords : list string)
  : string := "".

Definition generate_papers (self : t) (num_papers : Z)
  : M State (list PaperData) :=
  let start_year := 2000%Z in
  let* now := liftW Os.datetime_now in
  let current_year := year_of now in
  let years := seqZ start_year (current_year + 1 - start_year) in
  let year_weights : option (list Z) := None in
  for_each (range num_papers) (fun i papers =>
    let* num_keywords := randint 3 7 in
    let* paper_keywords :=
      sample (battery_keywords self)
        (Z.min num_keywords (Z.of_nat (length (battery_keywords self)))) in
    let* today := liftW Os.datetime_now in
    let paper_data := {|
      title := "";
      abstract := "";
      authors := [];
      publication_date := date_of today;
      journal := "";
      doi := "";
      citation_count := 0;
      keywords := paper_keywords
    |} in
    ret (papers ++ [paper_data])%list) [].

Section Citations.

(** Paper identifiers: integers by the annotation, titles in
    [populate_database].  [id_truthy] is their truth value. *)
Context {Id : Type} `{EqDecision Id}.
Variable id_truthy : Id -> bool.

Record Citation : Type := {
  citing_paper_id : Id;
  cited_paper_id : Id;
  citation_type : string
}.

Definition generate_citation_network (self : t) (paper_ids : list Id)
  : M State (list Citation) :=
  for_each paper_ids (fun citing_id citations =>
    let* num_citations := randint 10 60 in
    for_each (range num_citations) (fun _ citations =>
      let cited_id : option Id := None in
      match cited_id with
      | Some cited =>
          if id_truthy cited && negb (bool_decide (cited = citing_id))
          then
            let* kind :=
              choice "direct"
                ["comparative"; "methodological"; "background"] in
            ret (citations ++ [{| citing_paper_id := citing_id;
                                  cited_paper_id := cited;
                                  citation_type := kind |}])%list
          else ret citations
      | None => ret citations
      end) citations) [].

End Citations.

(** A string is true when it is not empty. *)
Definition str_truthy (s : string) : bool := negb (String.eqb s "").

Definition populate_database (self : t) (num_authors num_papers : Z)
  : M State unit :=
  print ("Generating " ++ pretty num_authors ++ " authors and "
         ++ pretty num_papers ++ " papers...") ;;
  DatabaseManager.get_transaction (db_manager self) (fun conn =>
    try_except_Exception
      (let authors := generate_authors self num_authors in
       print "Inserting authors..." ;;
       pass ;;
       let* papers := generate_papers self num_papers in
       print "Inserting papers..." ;;
       pass ;;
       print "Creating paper-author relationships..." ;;
       pass ;;
       print "Generating citation network..." ;;
       let paper_ids := title <$> papers in
       let* citations :=
         generate_citation_network str_truthy self paper_ids in
       pass ;;
       print "Generating supplementary data..." ;;
       print ("Successfully populated database with "
              ++ pretty (length authors) ++ " authors, "
              ++ pretty (length papers) ++ " papers, and "
              ++ pretty (length citations) ++ " citations."))
      (fun e =>
         print ("Error during data population: " ++ exc_str e) ;;
         raise e)).

(** The dictionary that [validate_generated_data] returns. *)
Record ValidationResults : Type := {
  total_authors : Z;
  total_papers : Z;
  total_citations : Z;
  data_quality_issues : list string;
  referential_integrity : bool
}.

Definition validate_generated_data (self : t) : M State ValidationResults :=
  let validation_results := {|
    total_authors := 0; total_papers := 0; total_citations := 0;
    data_quality_issues := []; referential_integrity := true
  |} in
  DatabaseManager.get_connection (db_manager self) (fun conn => pass) ;;
  ret validation_results.

Definition generate_performance_test_data (self : t) (scale_factor : Z)
  : M State unit :=
  let authors_count := (1000 * scale_factor)%Z in
  let papers_count := (5000 * scale_factor)%Z in
  print ("Generating performance test data: " ++ pretty authors_count
         ++ " authors, " ++ pretty papers_count ++ " papers") ;;
  pass.

End Generator.

End SampleDataGenerator.

(** * Properties *)

(** ** The scoped connection and the scoped transaction *)

Section ScopeFacts.

Context {St : Type} `{HasWorld St} {A : Type}.
Implicit Types (body : option Connection -> M St A) (s : St).

(** With no connection object, [get_connection_from] adds nothing to
    the operation: both [if conn:] guards are false. *)
Lemma get_connection_from_None body s :
  DatabaseManager.get_connection_from None body s = body None s.
Proof.
  unfold DatabaseManager.get_connection_from, try_finally,
    try_except_Exception, try_except, bind, pass, ret, raise.
  simpl. destruct (body None s) as [[a | e] s']; [done |].
  by destruct (is_Exception e).
Qed.

Lemma transaction_block_bare body conn s :
  DatabaseManager.transaction_block body conn s = body conn s.
Proof.
  unfold DatabaseManager.transaction_block, try_except_Exception,
    try_except, bind, pass, ret, raise.
  simpl. destruct (body conn s) as [[a | e] s']; [done |].
  by destruct (is_Exception e).
Qed.

Lemma get_connection_bare self body s :
  DatabaseManager.get_connection self body s = body None s.
Proof. apply get_connection_from_None. Qed.

Lemma get_transaction_bare self body s :
  DatabaseManager.get_transaction self body s = body None s.
Proof.
  unfold DatabaseManager.get_transaction.
  rewrite get_connection_bare. apply transaction_block_bare.
Qed.

End ScopeFacts.

(** What the [try]/[except]/[finally] frame of [get_connection] does
    once [conn] is a connection object: after the operation it calls
    [rollback] when an [Exception] was raised, then [close], once; it
    returns exactly when the operation does. *)
Lemma get_connection_from_Some_trace {A} (c : Connection)
    (body : option Connection -> M World A) (w : World) :
  let after_body := body (Some c) w in
  let after_scope := DatabaseManager.get_connection_from (Some c) body w in
  is_Returned (fst after_scope) = is_Returned (fst after_body) /\
  trace (snd after_scope) =
    (trace (snd after_body)
     ++ match fst after_body with
        | Raised e => if is_Exception e then [(c, CallRollback)] else []
        | Returned _ => []
        end
     ++ [(c, CallClose)])%list.
Proof.
  unfold DatabaseManager.get_connection_from, try_finally,
    try_except_Exception, try_except, bind, pass, ret, raise, liftW.
  simpl. destruct (body (Some c) w) as [[a | e] w']; simpl; [done |].
  destruct (is_Exception e); simpl; [| done].
  unfold Conn.rollback. simpl.
  destruct (closed (Conn.state_of c (record_call c CallRollback w')));
    simpl; by rewrite <- app_assoc.
Qed.

(** What the frame of [get_connection] would make of the transaction
    block with a connection object: the insert opens a transaction
    implicitly, nothing commits it, and [close] drops it. *)
Example transaction_block_alone_loses_the_insert :
  let w := set_conn 0 Conn.idle Scenario.fresh_world in
  let after :=
    DatabaseManager.get_transaction_from (Some 0)
      Scenario.insert_author w in
  fst after = Returned tt /\
  trace (snd after) =
    [(0, CallExecute (INSERT "authors" Scenario.ada)); (0, CallClose)] /\
  fst (Scenario.read_authors (snd after)) = Returned [].
Proof. vm_compute. done. Qed.

(** For comparison, the connection model itself: an insert that is
    committed before the connection is closed is read by a connection
    opened afterwards. *)
Example committed_insert_is_visible :
  let written :=
    (let* c := Conn.connect in
     Conn.execute c (INSERT "authors" Scenario.ada) ;;
     Conn.commit c ;;
     Conn.close c) Scenario.fresh_world in
  fst written = Returned tt /\
  fst (Scenario.read_authors (snd written)) = Returned [Scenario.ada].
Proof. vm_compute. done. Qed.

(** C1.  [get_transaction] hands the operation [None] and calls nothing
    on any connection: no BEGIN before the operation, no COMMIT after an
    operation that returns, no ROLLBACK after one that raises.  The
    state is left as the operation left it and the exception is raised
    again.  An operation that inserts a row and then fails does not get
    as far as its own error: the insert on [None] raises
    [AttributeError]. *)
Theorem get_transaction_sends_no_statement
    (self : DatabaseManager.t) (w : World) :
  DatabaseManager.get_transaction self Scenario.idle_operation w
    = (Returned tt, w)
  /\ DatabaseManager.get_transaction self Scenario.failing_operation w
    = (Raised (ValueError "failure"), w)
  /\ DatabaseManager.get_transaction self (fun conn => ret conn) w
    = (Returned None, w)
  /\ DatabaseManager.get_transaction self Scenario.insert_author_then_fail w
    = (Raised (AttributeError
                 "'NoneType' object has no attribute 'execute'"), w).
Proof. by rewrite !get_transaction_bare. Qed.

(** C2.  For every operation, [get_connection] and [get_transaction]
    behave as the operation applied to [None]: no connection is
    acquired, and the scope itself calls neither [rollback] nor [close],
    on any exit path.  On the freshly set up database the trace of
    connection calls stays empty after an operation that returns and
    after one that raises. *)
Theorem scopes_acquire_and_release_nothing
    (self : DatabaseManager.t) {A : Type}
    (body : option Connection -> M World A) (w : World) :
  DatabaseManager.get_connection self body w = body None w
  /\ DatabaseManager.get_transaction self body w = body None w
  /\ Scenario.count_calls CallClose
       (trace (snd (DatabaseManager.get_connection self
                      Scenario.idle_operation Scenario.fresh_world))) = 0
  /\ Scenario.count_calls CallClose
       (trace (snd (DatabaseManager.get_connection self
                      Scenario.failing_operation Scenario.fresh_world))) = 0
  /\ Scenario.count_calls CallRollback
       (trace (snd (DatabaseManager.get_transaction self
                      Scenario.failing_operation Scenario.fresh_world))) = 0.
Proof.
  rewrite !get_connection_bare, !get_transaction_bare. by repeat split.
Qed.

(** ** The connection pool *)

Lemma pool_get_connection_None (pool : ConnectionPool.t) (w : World) :
  ConnectionPool.get_connection (pool, w) = (Returned None, (pool, w)).
Proof. reflexivity. Qed.

Lemma pool_acquire_times (n : nat) (pool : ConnectionPool.t) (w : World) :
  ConnectionPool.acquire_times n (pool, w)
    = (Returned (replicate n None), (pool, w)).
Proof.
  induction n as [| n IH]; [done |].
  simpl. unfold bind at 1. rewrite pool_get_connection_None.
  unfold bind at 1. by rewrite IH.
Qed.

(** C3.  Whatever the pool size, [get_connection] never fails and never
    waits: each call returns [None] at once and leaves the pool
    untouched.  In particular, of [pool_size + 1] calls in a row with
    nothing returned in between, the last one returns [None] like the
    others. *)
Theorem pool_get_connection_never_exhausted
    (pool : ConnectionPool.t) (w : World) :
  (forall n : nat,
     ConnectionPool.acquire_times n (pool, w)
       = (Returned (replicate n None), (pool, w)))
  /\ ConnectionPool.acquire_times
       (S (Z.to_nat (ConnectionPool.pool_size pool))) (pool, w)
     = (Returned (replicate (Z.to_nat (ConnectionPool.pool_size pool)) None
                  ++ [None])%list,
        (pool, w)).
Proof.
  split; [intros n; apply pool_acquire_times |].
  rewrite pool_acquire_times. f_equal. f_equal.
  generalize (Z.to_nat (ConnectionPool.pool_size pool)) as k.
  induction k as [| k IH]; simpl; [done | by rewrite <- IH].
Qed.

(** An operation that inserts a row through the value that
    [get_transaction] yields cannot complete: the value is [None], the
    call raises [AttributeError], and the state is unchanged. *)
Example insert_through_the_scope_raises
    (self : DatabaseManager.t) (w : World) :
  DatabaseManager.get_transaction self Scenario.insert_author w
    = (Raised (AttributeError
                 "'NoneType' object has no attribute 'execute'"), w).
Proof. by rewrite get_transaction_bare. Qed.

(** ** Schema validation *)

Example fresh_world_has_every_expected_table :
  Forall (fun t => is_Some (tables Scenario.fresh_world !! t))
    (SchemaValidator.expected_tables ++ ["papers_fts"])%list.
Proof.
  unfold SchemaValidator.expected_tables. simpl.
  repeat (apply List.Forall_cons; [vm_compute; eauto |]).
  apply List.Forall_nil.
Qed.

Example citations_dropped :
  tables Scenario.world_without_citations !! "citations" = None.
Proof. by vm_compute. Qed.

(** C5.  [validate_schema] returns the report it starts from, on every
    database: [valid] is false, [issues] is empty, the counts are zero
    and [fts_enabled] is false.  So it is not valid on the freshly set
    up database, and after [citations] is dropped no issue names it. *)
Theorem validate_schema_reports_nothing
    (self : SchemaValidator.t) (w : World) :
  SchemaValidator.validate_schema self w
    = (Returned {| SchemaValidator.valid := false;
                   SchemaValidator.issues := [];
                   SchemaValidator.table_count := 0;
                   SchemaValidator.index_count := 0;
                   SchemaValidator.fts_enabled := false |}, w)
  /\ SchemaValidator.valid <$>
       fst (SchemaValidator.validate_schema self Scenario.fresh_world)
     = Returned false
  /\ SchemaValidator.issues <$>
       fst (SchemaValidator.validate_schema self
              Scenario.world_without_citations)
     = Returned [].
Proof.
  assert (Hgen : forall w', SchemaValidator.validate_schema self w'
            = (Returned {| SchemaValidator.valid := false;
                           SchemaValidator.issues := [];
                           SchemaValidator.table_count := 0;
                           SchemaValidator.index_count := 0;
                           SchemaValidator.fts_enabled := false |}, w')).
  { intros w'. unfold SchemaValidator.validate_schema.
    unfold bind at 1. by rewrite get_connection_bare. }
  by rewrite !Hgen.
Qed.

(** ** Query monitoring *)

Section MonitorFacts.

Context {Stat : Type}.
Implicit Types (mon : QueryPerformanceMonitor.t Stat) (w : World).

(** One monitored call: whatever the query text and the parameters,
    the result is the empty list and neither the monitor nor the world
    changes. *)
Lemma execute_with_monitoring_inert mon w query params :
  QueryPerformanceMonitor.execute_with_monitoring query params (mon, w)
    = (Returned [], (mon, w)).
Proof.
  unfold QueryPerformanceMonitor.execute_with_monitoring.
  unfold bind at 1. simpl. unfold bind at 1. simpl.
  unfold try_except_Exception, try_except.
  by rewrite get_connection_bare.
Qed.

(** C6.  Two monitored executions of one query text with different
    parameters leave [query_stats] as it was: no entry is created or
    updated.  On a monitor just constructed the dictionary is still
    empty afterwards, where one entry counting two executions is
    expected. *)
Theorem monitoring_accumulates_no_stat mon w
    (dbm : DatabaseManager.t) (query : string)
    (params1 params2 : option (list string)) :
  let twice :=
    QueryPerformanceMonitor.execute_with_monitoring query params1 ;;
    QueryPerformanceMonitor.execute_with_monitoring query params2 in
  QueryPerformanceMonitor.query_stats (fst (snd (twice (mon, w))))
    = QueryPerformanceMonitor.query_stats mon
  /\ size (QueryPerformanceMonitor.query_stats
             (fst (snd (twice
                (QueryPerformanceMonitor.__init__ (Stat:=Stat) dbm, w)))))
     = 0.
Proof.
  cbv zeta. unfold bind.
  by rewrite !execute_with_monitoring_inert.
Qed.

(** C7.  [execute_with_monitoring] executes nothing: for every query
    text and parameters, well-formed or not, it returns the empty
    list.  It never raises, so no failure reaches the caller, as
    [QueryExecutionError] or otherwise, and a failing query cannot be
    told from one without rows. *)
Theorem monitoring_returns_empty_for_every_query mon w
    (query : string) (params : option (list string)) :
  QueryPerformanceMonitor.execute_with_monitoring query params (mon, w)
    = (Returned [], (mon, w))
  /\ QueryPerformanceMonitor.execute_with_monitoring
       "SELEC * FRM no_such_table WHERE" None (mon, w)
     = (Returned [], (mon, w)).
Proof. by rewrite !execute_with_monitoring_inert. Qed.

End MonitorFacts.

(** ** Creating the parent directory *)

Section MkdirFacts.

Import Pathlib FsSpec.
Implicit Types (fs : gmap (list string) Node) (p q : Path) (w : World).

Lemma set_files_same w : set_files (files w) w = w.
Proof. by destruct w. Qed.

Lemma is_dir_in_cons fs x p :
  is_dir_in fs (x :: p) = true <-> fs !! (x :: p) = Some Dir.
Proof.
  unfold is_dir_in. simpl.
  destruct (fs !! (x :: p)) as [[| c | why | why] |]; split; congruence.
Qed.

Lemma is_dir_exists fs p : is_dir_in fs p = true -> exists_in fs p = true.
Proof.
  unfold is_dir_in, exists_in.
  by destruct (node_at fs p) as [[| c | why | why] |].
Qed.

(** In a well-formed file system a directory has no file and no refusal
    above it, and nothing is missing above it. *)
Lemma well_formed_dir fs p :
  well_formed fs -> is_dir_in fs p = true ->
  blocked fs p = false /\ refused fs p = false /\ make_dirs p fs = fs.
Proof.
  intros Hwf. induction p as [| x up IH]; intros Hdir; [done |].
  apply is_dir_in_cons in Hdir as Hp.
  assert (Hup : is_dir_in fs up = true).
  { apply (Hwf (x :: up)). by apply is_dir_exists. }
  destruct (IH Hup) as (Hb & Hr & Hm). simpl. by rewrite Hp, Hb, Hr, Hm, Hp.
Qed.


(** [make_dirs p] touches no path longer than [p]. *)
Lemma make_dirs_lookup_longer p q fs :
  length p < length q -> make_dirs p fs !! q = fs !! q.
Proof.
  revert q. induction p as [| x up IH]; intros q Hlen; [done |].
  simpl in *. rewrite <- (IH q) by lia.
  destruct (make_dirs up fs !! (x :: up)); [done |].
  apply lookup_insert_ne. intros <-. simpl in Hlen. lia.
Qed.

Lemma make_dirs_subseteq p fs : fs ⊆ make_dirs p fs.
Proof.
  induction p as [| x up IH]; [done |]. simpl.
  destruct (make_dirs up fs !! (x :: up)) eqn:Hp; [done |].
  etrans; [exact IH |]. by apply insert_subseteq.
Qed.

Lemma blocked_parent fs x up :
  blocked fs (x :: up) = false -> blocked fs up = false.
Proof.
  simpl. by destruct (fs !! (x :: up)) as [[| c | why | why] |].
Qed.

Lemma refused_parent fs x up :
  refused fs (x :: up) = false -> refused fs up = false.
Proof.
  simpl. by destruct (fs !! (x :: up)) as [[| c | why | why] |].
Qed.

Lemma has_nul_parent x up : has_nul (x :: up) = false -> has_nul up = false.
Proof. unfold has_nul. simpl. by intros [_ ?]%orb_false_iff. Qed.

Lemma fits_parent x up : fits (x :: up) = true -> fits up = true.
Proof.
  unfold fits. cbn [forallb path_bytes].
  rewrite !andb_true_iff, !Nat.leb_le. intros [[_ Hall] Hlen].
  split; [done | lia].
Qed.

Lemma fits_name x up : fits (x :: up) = true -> name_too_long (x :: up) = false.
Proof.
  unfold fits, name_too_long. cbn [forallb].
  rewrite !andb_true_iff, Nat.leb_le, Nat.ltb_ge. by intros [[? _] _].
Qed.

Lemma clear_inv fs p :
  clear fs p = true ->
  has_nul p = false /\ fits p = true
  /\ blocked fs p = false /\ refused fs p = false.
Proof.
  unfold clear. rewrite !andb_true_iff, !negb_true_iff.
  by intros [[[? ?] ?] ?].
Qed.

Lemma clear_parent fs x up :
  clear fs (x :: up) = true -> clear fs up = true.
Proof.
  intros (Hn & Hf & Hb & Hr)%clear_inv. unfold clear.
  by rewrite (has_nul_parent _ _ Hn), (fits_parent _ _ Hf),
    (blocked_parent _ _ _ Hb), (refused_parent _ _ _ Hr).
Qed.

(** At a clear path there is a directory or nothing. *)
Lemma clear_node fs x up :
  clear fs (x :: up) = true ->
  fs !! (x :: up) = Some Dir \/ fs !! (x :: up) = None.
Proof.
  intros (_ & _ & Hb & Hr)%clear_inv. simpl in Hb, Hr.
  destruct (fs !! (x :: up)) as [[| c | why | why] |]; auto; done.
Qed.

Lemma make_dirs_is_dir fs p :
  clear fs p = true -> is_dir_in (make_dirs p fs) p = true.
Proof.
  destruct p as [| x up]; [done |]. intros Hclear.
  apply is_dir_in_cons. simpl.
  destruct (make_dirs up fs !! (x :: up)) as [n |] eqn:Hp.
  - rewrite Hp. rewrite make_dirs_lookup_longer in Hp by (simpl; lia).
    destruct (clear_node _ _ _ Hclear); congruence.
  - apply lookup_insert_eq.
Qed.

Lemma insert_dir_well_formed fs x up :
  well_formed fs -> is_dir_in fs up = true -> fs !! (x :: up) = None ->
  well_formed (<[x :: up := Dir]> fs).
Proof.
  intros Hwf Hup Hp q Hq.
  assert (Hkeep : forall r, is_dir_in fs r = true ->
            is_dir_in (<[x :: up := Dir]> fs) r = true).
  { intros [| y r]; [done |]. rewrite !is_dir_in_cons. intros Hr.
    rewrite lookup_insert_ne; [done |]. intros Heq.
    rewrite Heq in Hp. congruence. }
  apply Hkeep. destruct (decide (q = x :: up)) as [-> | Hne]; [done |].
  apply Hwf. destruct q as [| y q]; [done |].
  unfold exists_in in *. simpl in *. by rewrite lookup_insert_ne in Hq.
Qed.

Lemma make_dirs_well_formed fs p :
  well_formed fs -> clear fs p = true -> well_formed (make_dirs p fs).
Proof.
  intros Hwf. induction p as [| x up IH]; intros Hclear; [done |].
  specialize (IH (clear_parent _ _ _ Hclear)).
  pose proof (make_dirs_is_dir fs up (clear_parent _ _ _ Hclear)) as Hup.
  simpl. destruct (make_dirs up fs !! (x :: up)) eqn:Hp; [done |].
  by apply insert_dir_well_formed.
Qed.

(** [Path.mkdir(parents=True, exist_ok=True)], one step unfolded. *)
Lemma Path_mkdir_eq p w :
  Os.Path_mkdir true true p w =
    match Os.mkdir p w with
    | (Returned u, w') => (Returned u, w')
    | (Raised FileNotFoundError, w') =>
        match p with
        | [] => (Raised FileNotFoundError, w')
        | _ :: up =>
            (Os.Path_mkdir true true up ;; Os.Path_mkdir_flat true p) w'
        end
    | (Raised e, w') =>
        if is_OSError e
        then (if is_dir_in (files w') p then Returned tt else Raised e, w')
        else (Raised e, w')
    end.
Proof.
  destruct p as [| x up]; cbn [Os.Path_mkdir]; unfold try_except;
    destruct (Os.mkdir _ w) as [[u | e] w']; try done;
    destruct e; try done; cbn [is_OSError negb orb];
    unfold bind, Os.is_dir; by destruct (is_dir_in (files w') _).
Qed.

Lemma Path_mkdir_flat_eq p w :
  Os.Path_mkdir_flat true p w =
    match Os.mkdir p w with
    | (Returned u, w') => (Returned u, w')
    | (Raised FileNotFoundError, w') => (Raised FileNotFoundError, w')
    | (Raised e, w') =>
        if is_OSError e
        then (if is_dir_in (files w') p then Returned tt else Raised e, w')
        else (Raised e, w')
    end.
Proof.
  unfold Os.Path_mkdir_flat, try_except.
  destruct (Os.mkdir p w) as [[u | e] w']; try done;
    destruct e; try done; cbn [is_OSError negb orb];
    unfold bind, Os.is_dir; by destruct (is_dir_in (files w') _).
Qed.

(** What [os.mkdir] does, by the state of the path and of its parent. *)
Lemma mkdir_nul p w :
  has_nul p = true ->
  Os.mkdir p w = (Raised (ValueError "embedded null byte"), w).
Proof. intros H. unfold Os.mkdir. by rewrite H. Qed.

Lemma mkdir_exists p w :
  has_nul p = false -> exists_in (files w) p = true ->
  Os.mkdir p w = (Raised FileExistsError, w).
Proof. intros Hn He. unfold Os.mkdir. by rewrite Hn, He. Qed.

Lemma mkdir_makes x up w :
  has_nul (x :: up) = false -> name_too_long (x :: up) = false ->
  files w !! (x :: up) = None -> is_dir_in (files w) up = true ->
  Os.mkdir (x :: up) w
    = (Returned tt, set_files (<[x :: up := Dir]> (files w)) w).
Proof.
  intros Hn Hlong Hp Hup. unfold Os.mkdir, exists_in. rewrite Hn.
  cbn [node_at parent tail]. rewrite Hp, Hlong.
  unfold is_dir_in in Hup.
  by destruct (node_at (files w) up) as [[| c | why | why] |].
Qed.

Lemma mkdir_orphan x up w :
  has_nul (x :: up) = false -> exists_in (files w) (x :: up) = false ->
  exists_in (files w) up = false ->
  Os.mkdir (x :: up) w = (Raised FileNotFoundError, w).
Proof.
  intros Hn Hp Hup. unfold Os.mkdir. rewrite Hn, Hp.
  cbn [parent tail]. unfold exists_in in Hup.
  by destruct (node_at (files w) up) as [[| c | why | why] |].
Qed.

Lemma refusal_is_OSError why : is_OSError (refusal_error why) = true.
Proof. by destruct why. Qed.

Lemma refusal_not_missing why : refusal_error why <> FileNotFoundError.
Proof. by destruct why. Qed.

(** Under an existing parent [os.mkdir] either fails with an [OSError]
    that is not the one for a missing parent and changes nothing, or
    the parent is a directory, nothing was at the path, and the
    directory is made. *)
Lemma mkdir_at x up w :
  has_nul (x :: up) = false -> exists_in (files w) (x :: up) = false ->
  exists_in (files w) up = true ->
  (exists e, Os.mkdir (x :: up) w = (Raised e, w)
             /\ is_OSError e = true /\ e <> FileNotFoundError)
  \/ (is_dir_in (files w) up = true /\ files w !! (x :: up) = None
      /\ Os.mkdir (x :: up) w
         = (Returned tt, set_files (<[x :: up := Dir]> (files w)) w)).
Proof.
  intros Hn Hex Hup. unfold Os.mkdir. rewrite Hn, Hex.
  cbn [parent tail]. unfold exists_in in Hup, Hex. unfold is_dir_in.
  destruct (node_at (files w) up) as [[| c | why | why] |]; try done.
  - cbn [node_at] in *.
    destruct (files w !! (x :: up)) as [[| c | why | why] |]; try done.
    + left. eexists. split; [done |].
      split; [apply refusal_is_OSError | apply refusal_not_missing].
    + destruct (name_too_long (x :: up)).
      * left. eexists. by split_and!.
      * by right.
  - left. by exists NotADirectoryError.
  - left. by exists NotADirectoryError.
Qed.

(** An [OSError] of [os.mkdir] other than that for a missing parent is
    swallowed exactly when the path is a directory. *)
Lemma Path_mkdir_other p w e w' :
  Os.mkdir p w = (Raised e, w') -> is_OSError e = true ->
  e <> FileNotFoundError ->
  Os.Path_mkdir true true p w
    = (if is_dir_in (files w') p then Returned tt else Raised e, w').
Proof.
  intros He Hos Hne. rewrite Path_mkdir_eq, He.
  destruct e; try done; by rewrite ?Hos.
Qed.

Lemma Path_mkdir_flat_other p w e w' :
  Os.mkdir p w = (Raised e, w') -> is_OSError e = true ->
  e <> FileNotFoundError ->
  Os.Path_mkdir_flat true p w
    = (if is_dir_in (files w') p then Returned tt else Raised e, w').
Proof.
  intros He Hos Hne. rewrite Path_mkdir_flat_eq, He.
  destruct e; try done; by rewrite ?Hos.
Qed.

Lemma not_exists_not_dir fs p :
  exists_in fs p = false -> is_dir_in fs p = false.
Proof.
  intros Hex. destruct (is_dir_in fs p) eqn:Hd; [| done].
  apply is_dir_exists in Hd. congruence.
Qed.

(** [Path.mkdir(parents=True, exist_ok=True)] where nothing stands in
    the way: it returns and has made the missing directories. *)
Lemma Path_mkdir_clear p w :
  well_formed (files w) -> clear (files w) p = true ->
  Os.Path_mkdir true true p w
    = (Returned tt, set_files (make_dirs p (files w)) w).
Proof.
  intros Hwf. induction p as [| x up IH]; intros Hclear.
  - rewrite Path_mkdir_eq, mkdir_exists by done. simpl.
    by rewrite set_files_same.
  - destruct (clear_inv _ _ Hclear) as (Hn & Hfits & _ & _).
    pose proof (fits_name _ _ Hfits) as Hlong.
    pose proof (clear_parent _ _ _ Hclear) as Hcup.
    rewrite Path_mkdir_eq. cbn [make_dirs].
    destruct (clear_node _ _ _ Hclear) as [Hp | Hp].
    + (* already a directory *)
      assert (Hdir : is_dir_in (files w) (x :: up) = true)
        by by apply is_dir_in_cons.
      rewrite mkdir_exists by (by try apply is_dir_exists).
      cbn [is_OSError]. rewrite Hdir.
      destruct (well_formed_dir _ _ Hwf Hdir) as (_ & _ & Hsame).
      simpl in Hsame. rewrite Hsame. by rewrite set_files_same.
    + destruct (is_dir_in (files w) up) eqn:Hup.
      * (* the parent is a directory *)
        rewrite mkdir_makes by done.
        destruct (well_formed_dir _ _ Hwf Hup) as (_ & _ & ->).
        by rewrite Hp.
      * (* the parent is missing *)
        assert (Hnone : exists_in (files w) up = false).
        { destruct up as [| y up']; [done |].
          destruct (clear_node _ _ _ Hcup) as [Hu | Hu];
            [by apply is_dir_in_cons in Hu; congruence |].
          unfold exists_in. simpl. by rewrite Hu. }
        rewrite mkdir_orphan;
          [| done | unfold exists_in; simpl; by rewrite Hp | done].
        unfold bind. rewrite (IH Hcup).
        rewrite Path_mkdir_flat_eq.
        rewrite mkdir_makes; cbn [files set_files].
        -- rewrite make_dirs_lookup_longer by (simpl; lia). by rewrite Hp.
        -- done.
        -- done.
        -- rewrite make_dirs_lookup_longer by (simpl; lia). exact Hp.
        -- by apply make_dirs_is_dir.
Qed.

Lemma grown_refl p w : grown p w w.
Proof. split; [by rewrite set_files_same | done]. Qed.


Lemma grown_longer p q w w1 :
  grown p w w1 -> length p < length q -> files w1 !! q = files w !! q.
Proof.
  intros [_ Hdiff] Hlen.
  destruct (decide (files w1 !! q = files w !! q)) as [-> | Hne]; [done |].
  destruct (Hdiff q Hne) as (Hsuf & _).
  apply suffix_length in Hsuf. lia.
Qed.

Lemma grown_step x up w w1 : grown up w w1 -> grown (x :: up) w w1.
Proof.
  intros [Hframe Hdiff]. split; [done |]. intros q Hq.
  destruct (Hdiff q Hq) as (Hsuf & Hrest). split; [| done].
  by apply suffix_cons_r.
Qed.

Lemma grown_insert x up w w1 :
  grown up w w1 -> files w !! (x :: up) = None ->
  grown (x :: up) w (set_files (<[x :: up := Dir]> (files w1)) w1).
Proof.
  intros [Hframe Hdiff] Hp. split.
  - cbn [files set_files]. rewrite Hframe. done.
  - cbn [files set_files]. intros q Hq.
    destruct (decide (q = x :: up)) as [-> | Hne].
    + by rewrite lookup_insert_eq.
    + rewrite lookup_insert_ne in Hq by done.
      rewrite lookup_insert_ne by done.
      destruct (Hdiff q Hq) as (Hsuf & Hrest). split; [| done].
      by apply suffix_cons_r.
Qed.

(** [Path.mkdir(parents=True, exist_ok=True)] on any well-formed file
    system: it makes directories at the path or above it where nothing
    was and changes nothing else; when it returns the path is a
    directory, when it raises the path is as before; and running it
    again in the state it left gives the same outcome and changes
    nothing more. *)
Lemma Path_mkdir_grows p :
  forall w r w1,
    well_formed (files w) -> Os.Path_mkdir true true p w = (r, w1) ->
    well_formed (files w1) /\ grown p w w1
    /\ (is_Returned r = true -> is_dir_in (files w1) p = true)
    /\ (is_Returned r = false ->
        node_at (files w1) p = node_at (files w) p)
    /\ Os.Path_mkdir true true p w1 = (r, w1).
Proof.
  induction p as [| x up IH]; intros w r w1 Hwf Hrun.
  - rewrite Path_mkdir_eq, mkdir_exists in Hrun by done.
    simpl in Hrun. injection Hrun as <- <-.
    split_and!; [done | apply grown_refl | done | done |].
    by rewrite Path_mkdir_eq, mkdir_exists.
  - destruct (has_nul (x :: up)) eqn:Hn.
    { rewrite Path_mkdir_eq, mkdir_nul in Hrun by done. simpl in Hrun.
      injection Hrun as <- <-.
      split_and!; [done | apply grown_refl | done | done |].
      by rewrite Path_mkdir_eq, mkdir_nul. }
    destruct (exists_in (files w) (x :: up)) eqn:Hex.
    { rewrite Path_mkdir_eq, mkdir_exists in Hrun by done.
      cbn [is_OSError] in Hrun. injection Hrun as <- <-.
      split_and!; [done | apply grown_refl | | done |].
      - by destruct (is_dir_in (files w) (x :: up)).
      - by rewrite Path_mkdir_eq, mkdir_exists. }
    pose proof (not_exists_not_dir _ _ Hex) as Hnot.
    destruct (exists_in (files w) up) eqn:Hexup.
    + (* the parent exists *)
      destruct (mkdir_at x up w Hn Hex Hexup)
        as [(e & He & Hos & Hne) | (Hdup & Hp & Hmk)].
      * rewrite (Path_mkdir_other _ _ _ _ He Hos Hne), Hnot in Hrun.
        injection Hrun as <- <-.
        split_and!; [done | apply grown_refl | done | done |].
        by rewrite (Path_mkdir_other _ _ _ _ He Hos Hne), Hnot.
      * rewrite Path_mkdir_eq, Hmk in Hrun. injection Hrun as <- <-.
        cbn [files set_files].
        assert (Hnow : is_dir_in (<[x :: up := Dir]> (files w))
                         (x :: up) = true)
          by (apply is_dir_in_cons; apply lookup_insert_eq).
        split_and!.
        -- by apply insert_dir_well_formed.
        -- apply (grown_insert x up w w (grown_refl up w) Hp).
        -- done.
        -- done.
        -- rewrite Path_mkdir_eq, mkdir_exists;
             cbn [files set_files]; [| done | by apply is_dir_exists].
           cbn [is_OSError]. by rewrite Hnow.
    + (* the parent is missing *)
      rewrite Path_mkdir_eq, mkdir_orphan in Hrun by done.
      unfold bind in Hrun.
      destruct (Os.Path_mkdir true true up w) as [r_up w_up] eqn:Hup.
      destruct (IH w r_up w_up Hwf Hup)
        as (Hwf_up & Hgrown & Hdir_up & Hsame_up & Hagain).
      assert (Hp_up : files w_up !! (x :: up) = files w !! (x :: up))
        by (eapply grown_longer; [exact Hgrown | simpl; lia]).
      assert (Hex_up : exists_in (files w_up) (x :: up) = false)
        by (unfold exists_in in *; simpl in *; by rewrite Hp_up).
      pose proof (not_exists_not_dir _ _ Hex_up) as Hnot_up.
      destruct r_up as [[] | e_up].
      * (* the parent was made *)
        specialize (Hdir_up eq_refl).
        destruct (mkdir_at x up w_up Hn Hex_up (is_dir_exists _ _ Hdir_up))
          as [(e & He & Hos & Hne) | (_ & Hp & Hmk)].
        -- rewrite (Path_mkdir_flat_other _ _ _ _ He Hos Hne), Hnot_up
             in Hrun.
           injection Hrun as <- <-.
           split_and!;
             [done | by apply grown_step | done
             | cbn [node_at]; congruence |].
           by rewrite (Path_mkdir_other _ _ _ _ He Hos Hne), Hnot_up.
        -- rewrite Path_mkdir_flat_eq, Hmk in Hrun.
           injection Hrun as <- <-.
           assert (Hnow : is_dir_in (<[x :: up := Dir]> (files w_up))
                            (x :: up) = true)
             by (apply is_dir_in_cons; apply lookup_insert_eq).
           split_and!.
           ++ by apply insert_dir_well_formed.
           ++ apply (grown_insert x up w w_up Hgrown). congruence.
           ++ done.
           ++ done.
           ++ rewrite Path_mkdir_eq, mkdir_exists;
                cbn [files set_files]; [| done | by apply is_dir_exists].
              cbn [is_OSError]. by rewrite Hnow.
      * (* making the parent failed *)
        injection Hrun as <- <-. specialize (Hsame_up eq_refl).
        assert (Hexup' : exists_in (files w_up) up = false)
          by (unfold exists_in in *; by rewrite Hsame_up).
        split_and!;
          [done | by apply grown_step | done
          | cbn [node_at]; congruence |].
        rewrite Path_mkdir_eq, mkdir_orphan by done.
        unfold bind. by rewrite Hagain.
Qed.

End MkdirFacts.

(** ** Database initialization *)

Section InitFacts.

Import Pathlib FsSpec.
Implicit Types (w : World) (self : DatabaseManager.t).

Lemma only_files_ret {A} (a : A) : only_files (ret a).
Proof. intros w. simpl. by rewrite set_files_same. Qed.

Lemma only_files_raise {A} e : only_files (raise (A:=A) e).
Proof. intros w. simpl. by rewrite set_files_same. Qed.

Lemma only_files_bind {A B} (m : M World A) (k : A -> M World B) :
  only_files m -> (forall a, only_files (k a)) -> only_files (bind m k).
Proof.
  intros Hm Hk w. unfold bind. specialize (Hm w).
  destruct (m w) as [[a | e] w1]; simpl in *; [| done].
  rewrite (Hk a w1) at 1. by rewrite Hm.
Qed.

Lemma only_files_try_except {A} (m : M World A) clauses :
  only_files m ->
  (forall e h, clauses e = Some h -> only_files h) ->
  only_files (try_except m clauses).
Proof.
  intros Hm Hh w. unfold try_except. specialize (Hm w).
  destruct (m w) as [[a | e] w1]; simpl in *; [done |].
  destruct (clauses e) as [h |] eqn:Hc; [| done].
  rewrite (Hh e h Hc w1) at 1. by rewrite Hm.
Qed.

Lemma only_files_os_mkdir p : only_files (Os.mkdir p).
Proof.
  intros w. unfold Os.mkdir.
  destruct (has_nul p); [by rewrite set_files_same |].
  destruct (exists_in (files w) p); [by rewrite set_files_same |].
  destruct (node_at (files w) (parent p)) as [[| c | why | why] |];
    simpl; rewrite ?set_files_same; try done.
  destruct (node_at (files w) p) as [[| c | why | why] |]; simpl;
    rewrite ?set_files_same; try done;
    destruct (name_too_long p); simpl; by rewrite ?set_files_same.
Qed.

Lemma only_files_is_dir p : only_files (Os.is_dir p).
Proof. intros w. simpl. by rewrite set_files_same. Qed.

Lemma only_files_exists p : only_files (Os.exists_ p).
Proof.
  intros w. unfold Os.exists_.
  destruct (node_at (files w) p) as [[| c | why | why] |]; simpl;
    rewrite ?set_files_same; try done.
  destruct (stops_lookup why); simpl; by rewrite set_files_same.
Qed.

Lemma only_files_exist_ok_clause p e (h : M World unit) :
  (if is_OSError e
   then Some (let* d := Os.is_dir p in
              if negb true || negb d then raise e else ret tt)
   else None) = Some h ->
  only_files h.
Proof.
  destruct (is_OSError e); [| done]. intros [= <-].
  apply only_files_bind; [apply only_files_is_dir |].
  intros d. destruct d; simpl;
    [apply only_files_ret | apply only_files_raise].
Qed.

Lemma only_files_Path_mkdir_flat p : only_files (Os.Path_mkdir_flat true p).
Proof.
  apply only_files_try_except; [apply only_files_os_mkdir |].
  intros e h. destruct e; try apply only_files_exist_ok_clause.
  intros [= <-]. apply only_files_raise.
Qed.

Lemma only_files_Path_mkdir p : only_files (Os.Path_mkdir true true p).
Proof.
  induction p as [| x up IH]; cbn [Os.Path_mkdir];
    (apply only_files_try_except; [apply only_files_os_mkdir |]);
    intros e h; destruct e; try apply only_files_exist_ok_clause;
    intros [= <-].
  - apply only_files_raise.
  - apply only_files_bind; [done |].
    intros _. apply only_files_Path_mkdir_flat.
Qed.

Lemma only_files_read_text p : only_files (Os.read_text p).
Proof.
  intros w. unfold Os.read_text.
  destruct (node_at (files w) p) as [[| c | why | why] |]; simpl;
    by rewrite set_files_same.
Qed.

Lemma only_files_initialize_database self :
  only_files (DatabaseManager._initialize_database self).
Proof.
  unfold DatabaseManager._initialize_database.
  apply only_files_bind; [apply only_files_Path_mkdir |].
  intros _ w. rewrite get_connection_bare. revert w.
  do 2 (apply only_files_bind; [apply only_files_ret | intros _]).
  apply only_files_bind; [apply only_files_exists |].
  intros [|]; [| apply only_files_ret].
  apply only_files_bind; [apply only_files_read_text |].
  intros _. apply only_files_ret.
Qed.

(** [make_dirs] leaves the entries directly under the directory as
    they are. *)
Lemma make_dirs_child fs (dir : Path) name :
  make_dirs dir fs !! (name :: dir) = fs !! (name :: dir).
Proof. apply make_dirs_lookup_longer. simpl. lia. Qed.

(** [_initialize_database] makes the directory and then looks the
    schema script up and reads it; nothing else happens. *)
Lemma initialize_database_eq self w :
  let dir := parent (DatabaseManager.db_path self) in
  DatabaseManager._initialize_database self w
    = match Os.Path_mkdir true true dir w with
      | (Returned _, w1) =>
          (schema_load (files w1) (joinpath dir "schema.sql"), w1)
      | (Raised e, w1) => (Raised e, w1)
      end.
Proof.
  intros dir. subst dir.
  unfold DatabaseManager._initialize_database. unfold bind at 1.
  destruct (Os.Path_mkdir true true _ w) as [[[] | e] w1]; [| done].
  rewrite get_connection_bare.
  unfold bind, pass, ret, Os.exists_, Os.read_text, schema_load,
    exists_in.
  destruct (node_at (files w1) _) as [[| c | why | why] |] eqn:Hs;
    rewrite ?Hs; try done.
  by destruct (stops_lookup why).
Qed.

(** What [_initialize_database] does where nothing stands in the way of
    the directory. *)
Lemma initialize_database_spec self w :
  let dir := parent (DatabaseManager.db_path self) in
  well_formed (files w) -> clear (files w) dir = true ->
  DatabaseManager._initialize_database self w
    = (schema_load (files w) (joinpath dir "schema.sql"),
       set_files (make_dirs dir (files w)) w).
Proof.
  intros dir Hwf Hclear. rewrite initialize_database_eq. fold dir.
  rewrite (Path_mkdir_clear dir w Hwf Hclear). cbn [files set_files].
  unfold schema_load, joinpath, node_at. by rewrite make_dirs_child.
Qed.

End InitFacts.

Section InitClaims.

Import Pathlib FsSpec.
Implicit Types (w : World) (self : DatabaseManager.t).

(** Running the initialization again gives the same outcome and leaves
    the state as the first run left it. *)
Lemma initialize_database_idempotent self w :
  well_formed (files w) ->
  let first := DatabaseManager._initialize_database self w in
  DatabaseManager._initialize_database self (snd first) = first.
Proof.
  intros Hwf first. subst first. rewrite (initialize_database_eq self w).
  cbv zeta.
  destruct (Os.Path_mkdir true true
              (parent (DatabaseManager.db_path self)) w)
    as [r w1] eqn:Hmk.
  destruct (Path_mkdir_grows _ _ _ _ Hwf Hmk) as (_ & _ & _ & _ & Hagain).
  destruct r as [[] | e]; cbn [snd]; rewrite initialize_database_eq;
    cbv zeta; by rewrite Hagain.
Qed.

(** C8.  [_initialize_database] changes nothing but the file system:
    whatever [enable_wal] is, the journal mode and every other pragma
    stay as they were, and no table or index is created even when the
    schema script exists.  On a machine with [data/schema.sql] and an
    empty database it returns, the journal mode is still [delete],
    foreign keys are still off and there is still no table. *)
Theorem initialize_database_only_makes_the_directory self w :
  (let w' := snd (DatabaseManager._initialize_database self w) in
   pragmas w' = pragmas w /\ tables w' = tables w
   /\ indexes w' = indexes w /\ conns w' = conns w
   /\ trace w' = trace w)
  /\
  (let done_ :=
     DatabaseManager._initialize_database Scenario.manager
       Scenario.blank_world in
   fst done_ = Returned tt
   /\ pragmas (snd done_) !! "journal_mode" = Some "delete"
   /\ pragmas (snd done_) !! "foreign_keys" = Some "0"
   /\ tables (snd done_) = ∅).
Proof.
  split.
  - cbv zeta. by rewrite (only_files_initialize_database self w).
  - cbv zeta.
    rewrite (only_files_initialize_database Scenario.manager
               Scenario.blank_world).
    split; [by vm_compute | done].
Qed.

End InitClaims.

Section InitWitness.

Import Pathlib FsSpec.

Lemma well_formed_check (fs : gmap (list string) Node) :
  map_Forall (fun p _ => is_dir_in fs (parent p) = true) fs ->
  well_formed fs.
Proof.
  intros Hall [| x up] Hp; [done |].
  unfold exists_in in Hp. cbn [node_at] in Hp.
  destruct (fs !! (x :: up)) as [n |] eqn:Hn; [| done].
  exact (Hall _ n Hn).
Qed.

Example blank_world_well_formed :
  well_formed (files Scenario.blank_world).
Proof.
  apply well_formed_check. apply (bool_decide_unpack _). by vm_compute.
Qed.

Example constructor_makes_missing_ancestors :
  let made :=
    DatabaseManager.__init__ "data/papers/2024/lit.db" true
      Scenario.blank_world in
  is_Returned (fst made) = true
  /\ files (snd made) !! ["2024"; "papers"; "data"] = Some Dir
  /\ files (snd made) !! ["papers"; "data"] = Some Dir.
Proof. by vm_compute. Qed.

End InitWitness.

(** ** The production guard of [Settings] *)

Section SettingsFacts.

Import Config.

Lemma str_in_true (x : string) (l : list string) :
  str_in x l = true <-> In x l.
Proof.
  unfold str_in. rewrite existsb_exists. split.
  - intros [y [Hy Heq]]. apply String.eqb_eq in Heq. by subst.
  - intros Hx. exists x. split; [done | apply String.eqb_refl].
Qed.

Lemma is_production_iff (self : Settings) :
  is_production self = true <-> names_production (environment self).
Proof.
  unfold is_production, names_production, eq_ignore_case.
  rewrite str_in_true. simpl. intuition.
Qed.

Lemma is_production_false_iff (self : Settings) :
  is_production self = false <-> ~ names_production (environment self).
Proof.
  rewrite <- is_production_iff.
  destruct (is_production self); split; congruence.
Qed.

Example is_production_upper :
  is_production {| environment := "PROD"; debug := false;
                   log_level := "INFO";
                   security := SecuritySettings_default |} = true.
Proof. reflexivity. Qed.

Example is_production_mixed :
  is_production {| environment := "Production"; debug := false;
                   log_level := "INFO";
                   security := SecuritySettings_default |} = true.
Proof. reflexivity. Qed.

Example is_production_staging :
  is_production {| environment := "staging"; debug := true;
                   log_level := "INFO";
                   security := SecuritySettings_default |} = false.
Proof. reflexivity. Qed.

(** C9.  A [Settings] value whose environment is "production" or
    "prod" up to letter case cannot be constructed while the secret
    key is the development default or while [debug] is on: the
    constructor raises [ValueError].  With any other environment the
    constructor returns the value, whatever the secret key and [debug]
    are. *)
Theorem settings_production_guard (s : Settings) :
  (names_production (environment s) ->
   secret_key (security s) = dev_secret_key \/ debug s = true ->
   exists msg, Settings_construct s = Raised (ValueError msg))
  /\
  (~ names_production (environment s) ->
   Settings_construct s = Returned s).
Proof.
  split.
  - intros Hprod Hbad. apply is_production_iff in Hprod.
    unfold Settings_construct, model_post_init. rewrite Hprod.
    destruct (String.eqb_spec (secret_key (security s)) dev_secret_key)
      as [Hkey | Hkey]; [by eexists |].
    destruct Hbad as [Hbad | Hbad]; [done |].
    rewrite Hbad. by eexists.
  - intros Hdev. apply is_production_false_iff in Hdev.
    unfold Settings_construct, model_post_init. by rewrite Hdev.
Qed.

Lemma settings_production_guard_witness :
  (exists msg,
     Settings_construct prod_debug_settings = Raised (ValueError msg))
  /\ Settings_construct dev_default_settings
     = Returned dev_default_settings.
Proof.
  split.
  - apply (proj1 (settings_production_guard prod_debug_settings)).
    + right. reflexivity.
    + right. reflexivity.
  - apply (proj2 (settings_production_guard dev_default_settings)).
    intros [H | H]; vm_compute in H; discriminate H.
Defined.

End SettingsFacts.

(** ** String methods *)

Section StringFacts.

Import PyStr.
Implicit Types (s piece : string) (c sep : ascii) (l : list string).

Lemma split_nonempty sep s : split sep s <> [].
Proof.
  destruct s as [| c s]; simpl; [done |].
  destruct (Ascii.eqb c sep); [done |]. by destruct (split sep s).
Qed.

Lemma split_length sep s : length (split sep s) = S (count sep s).
Proof.
  induction s as [| c s IH]; simpl; [done |].
  destruct (Ascii.eqb c sep); simpl; [by rewrite IH |].
  pose proof (split_nonempty sep s) as Hne.
  destruct (split sep s); [done |]. exact IH.
Qed.

Lemma split_pieces_free sep s :
  Forall (fun piece => contains sep piece = false) (split sep s).
Proof.
  induction s as [| c s IH]; simpl; [by repeat constructor |].
  destruct (Ascii.eqb c sep) eqn:Hc; [by constructor |].
  pose proof (split_nonempty sep s) as Hne.
  destruct (split sep s) as [| piece rest]; [done |].
  inversion IH as [| ? ? Hpiece Hrest]; subst.
  constructor; [| done]. simpl. by rewrite Hc.
Qed.

(** A string without the separator is a single piece. *)
Lemma split_free sep s : contains sep s = false -> split sep s = [s].
Proof.
  induction s as [| c s IH]; simpl; [done |].
  destruct (Ascii.eqb c sep); [done |]. simpl. intros Hs.
  by rewrite (IH Hs).
Qed.

Lemma split_app_sep sep piece s :
  contains sep piece = false ->
  split sep (piece ++ String sep s) = piece :: split sep s.
Proof.
  induction piece as [| c piece IH]; simpl.
  - intros _. by rewrite Ascii.eqb_refl.
  - destruct (Ascii.eqb c sep); [done |]. simpl. intros Hp.
    by rewrite (IH Hp).
Qed.

Lemma split_join sep l :
  l <> [] -> Forall (fun piece => contains sep piece = false) l ->
  split sep (join sep l) = l.
Proof.
  induction l as [| piece rest IH]; [done |]. intros _ Hall.
  inversion Hall as [| ? ? Hpiece Hrest]; subst.
  destruct rest as [| piece' rest].
  - simpl. by apply split_free.
  - change (join sep (piece :: piece' :: rest))
      with (piece ++ String sep (join sep (piece' :: rest))).
    rewrite split_app_sep by done. by rewrite IH.
Qed.

Lemma join_split sep s : join sep (split sep s) = s.
Proof.
  induction s as [| c s IH]; simpl; [done |].
  destruct (Ascii.eqb_spec c sep) as [-> | Hne].
  - pose proof (split_nonempty sep s) as Hnil.
    destruct (split sep s) as [| piece rest] eqn:Hs; [done |].
    simpl in *. by rewrite IH.
  - pose proof (split_nonempty sep s) as Hnil.
    destruct (split sep s) as [| piece rest] eqn:Hs; [done |].
    destruct rest; simpl in *; by rewrite <- IH.
Qed.

Lemma lstrip_no_leading s : no_leading_space (lstrip s).
Proof.
  induction s as [| c s IH]; simpl; [done |].
  destruct (is_space c) eqn:Hc; [done |]. simpl. done.
Qed.

Lemma lstrip_fixed s : no_leading_space s -> lstrip s = s.
Proof. destruct s as [| c s]; simpl; [done |]. by intros ->. Qed.

Lemma rstrip_no_leading s : no_leading_space s -> no_leading_space (rstrip s).
Proof.
  destruct s as [| c s]; simpl; [done |]. intros Hc.
  destruct (rstrip s); [by rewrite Hc |]. done.
Qed.

Lemma rstrip_idempotent s : rstrip (rstrip s) = rstrip s.
Proof.
  induction s as [| c s IH]; simpl; [done |].
  destruct (rstrip s) as [| d kept] eqn:Hs.
  - destruct (is_space c) eqn:Hc; simpl; [done |]. by rewrite Hc.
  - change (rstrip (String c (String d kept)))
      with (match rstrip (String d kept) with
            | EmptyString => if is_space c then "" else String c ""
            | k => String c k
            end).
    by rewrite IH.
Qed.

Lemma strip_idempotent s : strip (strip s) = strip s.
Proof.
  unfold strip.
  rewrite (lstrip_fixed (rstrip (lstrip s))).
  - apply rstrip_idempotent.
  - apply rstrip_no_leading, lstrip_no_leading.
Qed.

Lemma lstrip_contains c s :
  contains c s = false -> contains c (lstrip s) = false.
Proof.
  induction s as [| d s IH]; simpl; [done |].
  destruct (is_space d); [| done].
  intros Hs. apply orb_false_iff in Hs as [_ Hs]. by apply IH.
Qed.

Lemma rstrip_contains c s :
  contains c s = false -> contains c (rstrip s) = false.
Proof.
  induction s as [| d s IH]; simpl; [done |].
  intros Hs. apply orb_false_iff in Hs as [Hd Hs].
  specialize (IH Hs).
  destruct (rstrip s) as [| e kept].
  - destruct (is_space d); simpl; [done |]. by rewrite Hd.
  - simpl in *. by rewrite Hd, IH.
Qed.

Lemma strip_contains c s :
  contains c s = false -> contains c (strip s) = false.
Proof. intros Hs. by apply rstrip_contains, lstrip_contains. Qed.

End StringFacts.

(** ** The field validators of the settings *)

Section HostFacts.

Import PyStr Validators.

(** X1.  From a string, [parse_allowed_hosts] makes one host more than
    there are commas, whatever stands between them: the empty string
    gives one empty host, a trailing comma a last empty host. *)
Theorem parse_allowed_hosts_count (v : string) :
  length (parse_allowed_hosts (HostsStr v)) = S (count "," v).
Proof. simpl. rewrite length_fmap. apply split_length. Qed.

(** X2.  Every host that [parse_allowed_hosts] makes from a string has
    no white space around it and no comma inside. *)
Theorem parse_allowed_hosts_clean (v : string) :
  Forall clean_host (parse_allowed_hosts (HostsStr v)).
Proof.
  simpl. apply Forall_fmap. eapply Forall_impl; [apply split_pieces_free |].
  intros piece Hfree. split; [apply strip_idempotent |].
  by apply strip_contains.
Qed.

(** X3.  Writing a non-empty list of clean hosts, each written in
    ASCII, with commas and parsing it gives the list back, the same list
    that [parse_allowed_hosts] returns when it is handed the list
    itself. *)
Theorem parse_allowed_hosts_round_trip (hosts : list string) :
  hosts <> [] ->
  Forall (fun h => is_ascii h = true) hosts ->
  Forall clean_host hosts ->
  parse_allowed_hosts (HostsStr (join "," hosts))
    = parse_allowed_hosts (HostsList hosts).
Proof.
  intros Hne _ Hclean. simpl. rewrite split_join; [| done |].
  - induction Hclean as [| h rest [Hstrip _] _ IH]; [done |].
    simpl. rewrite Hstrip. f_equal.
    destruct rest; [done |]. by apply IH.
  - eapply Forall_impl; [exact Hclean |]. by intros h [_ Hfree].
Qed.

Lemma parse_allowed_hosts_round_trip_witness :
  parse_allowed_hosts (HostsStr "localhost,127.0.0.1")
    = ["localhost"; "127.0.0.1"].
Proof.
  apply (parse_allowed_hosts_round_trip ["localhost"; "127.0.0.1"]).
  - discriminate.
  - repeat (apply List.Forall_cons; [reflexivity |]).
    apply List.Forall_nil.
  - repeat (apply List.Forall_cons; [split; reflexivity |]).
    apply List.Forall_nil.
Defined.

End HostFacts.

Section PathStringFacts.

Import PyStr Pathlib Validators.
Implicit Types (s cur part : string) (p acc : list string).

Lemma string_app_cons (x : ascii) (a b : string) :
  (String x a ++ b = String x (a ++ b))%string.
Proof. reflexivity. Qed.

Lemma string_app_assoc (a b c : string) :
  ((a ++ b) ++ c = a ++ (b ++ c))%string.
Proof.
  induction a as [| x a IH]; [done |].
  rewrite !string_app_cons. by rewrite IH.
Qed.

Lemma string_app_empty (a : string) : (a ++ "" = a)%string.
Proof.
  induction a as [| x a IH]; [done |].
  rewrite string_app_cons. by rewrite IH.
Qed.

Lemma contains_app c (a b : string) :
  contains c (a ++ b) = contains c a || contains c b.
Proof.
  induction a as [| x a IH]; [done |].
  rewrite string_app_cons. simpl. by rewrite IH, orb_assoc.
Qed.

Lemma push_part_kept cur acc :
  push_part cur acc = ((if kept_part cur then [cur] else []) ++ acc)%list.
Proof.
  unfold push_part, kept_part.
  by destruct (String.eqb cur "" || String.eqb cur ".").
Qed.

(** The parser of [Path(s)] keeps, innermost first, the pieces of [s]
    between slashes that are neither empty nor [.]. *)
Lemma parse_parts_split s cur acc :
  contains "/" cur = false ->
  parse_parts s cur acc
    = (rev (List.filter kept_part (split "/" (cur ++ s)%string)) ++ acc)%list.
Proof.
  revert cur acc. induction s as [| c s IH]; intros cur acc Hcur.
  - simpl. rewrite string_app_empty, (split_free _ _ Hcur).
    rewrite push_part_kept. simpl. by destruct (kept_part cur).
  - simpl. destruct (Ascii.eqb_spec c "/") as [-> | Hc].
    + rewrite (IH "" _ eq_refl). simpl.
      rewrite (split_app_sep _ _ _ Hcur), push_part_kept. simpl.
      destruct (kept_part cur); simpl; [| done].
      by rewrite <- app_assoc.
    + rewrite IH.
      * by rewrite string_app_assoc.
      * rewrite contains_app, Hcur. simpl.
        apply Ascii.eqb_neq in Hc. by rewrite Hc.
Qed.

Lemma of_string_split s :
  of_string s = rev (List.filter kept_part (split "/" s)).
Proof.
  unfold of_string. rewrite parse_parts_split by done.
  by rewrite app_nil_r.
Qed.

Lemma of_string_valid s : Forall valid_part (of_string s).
Proof.
  rewrite of_string_split. apply Forall_rev.
  pose proof (split_pieces_free "/" s) as Hfree.
  induction Hfree as [| piece rest Hpiece _ IH]; simpl; [done |].
  destruct (kept_part piece) eqn:Hk; [| done].
  by constructor.
Qed.

Lemma filter_kept_all (l : list string) :
  Forall valid_part l -> List.filter kept_part l = l.
Proof.
  induction 1 as [| part rest [Hk _] _ IH]; simpl; [done |].
  by rewrite Hk, IH.
Qed.

(** Parsing the components joined with slashes gives them back. *)
Lemma of_string_join p :
  p <> [] -> Forall valid_part p -> of_string (join "/" (rev p)) = p.
Proof.
  intros Hne Hvalid. rewrite of_string_split.
  assert (Hrev : Forall valid_part (rev p)) by by apply Forall_rev.
  rewrite split_join.
  - by rewrite (filter_kept_all _ Hrev), rev_involutive.
  - intros Hnil. apply Hne. by rewrite <- (rev_involutive p), Hnil.
  - eapply Forall_impl; [exact Hrev |]. by intros part [_ Hfree].
Qed.

(** A leading slash adds no component. *)
Lemma of_string_slash s : of_string (String "/" s) = of_string s.
Proof. reflexivity. Qed.

Lemma join_valid_head p :
  p <> [] -> Forall valid_part p ->
  exists c rest, join "/" (rev p) = String c rest /\ c <> "/"%char.
Proof.
  intros Hne Hvalid.
  assert (Hrev : Forall valid_part (rev p)) by by apply Forall_rev.
  destruct (rev p) as [| part rest] eqn:Hp.
  { exfalso. apply Hne. by rewrite <- (rev_involutive p), Hp. }
  inversion Hrev as [| ? ? [Hk Hfree] _]; subst.
  destruct part as [| c part]; [done |].
  simpl in Hfree. apply orb_false_iff in Hfree as [Hc _].
  apply Ascii.eqb_neq in Hc.
  exists c. destruct rest; simpl; eauto.
Qed.

Lemma root_of_cases s :
  root_of s = "" \/ root_of s = "/" \/ root_of s = "//".
Proof.
  destruct s as [| a [| b [| c s]]]; simpl; auto;
    repeat (match goal with
            | |- context [match ?x with _ => _ end] => destruct x
            end; simpl; auto).
Qed.

(** Parsing the rendered path gives the same root and components. *)
Lemma parse_render root p :
  (root = "" \/ root = "/" \/ root = "//") -> Forall valid_part p ->
  root_of (render root p) = root /\ of_string (render root p) = p.
Proof.
  intros Hroot Hvalid. destruct p as [| part rest].
  - destruct Hroot as [-> | [-> | ->]]; by vm_compute.
  - destruct (join_valid_head (part :: rest)) as (c & tl & Hjoin & Hc);
      [done | done |].
    pose proof (of_string_join (part :: rest)) as Hparse.
    specialize (Hparse ltac:(done) Hvalid).
    destruct Hroot as [-> | [-> | ->]]; unfold render; simpl String.eqb;
      cbv iota.
    + split; [| done]. rewrite Hjoin.
      destruct c as [[] [] [] [] [] [] [] []]; try done.
    + change ("/" ++ join "/" (rev (part :: rest)))%string
        with (String "/" (join "/" (rev (part :: rest)))).
      rewrite of_string_slash. split; [| done]. rewrite Hjoin.
      destruct c as [[] [] [] [] [] [] [] []]; try done.
    + change ("//" ++ join "/" (rev (part :: rest)))%string
        with (String "/" (String "/" (join "/" (rev (part :: rest))))).
      rewrite !of_string_slash. split; [| done]. rewrite Hjoin.
      destruct c as [[] [] [] [] [] [] [] []]; try done.
Qed.

(** Normalizing a path string a second time changes nothing, and the
    normalized string names the same path. *)
Lemma normalized_parse v :
  root_of (normalized v) = root_of v
  /\ of_string (normalized v) = of_string v.
Proof. apply parse_render; [apply root_of_cases | apply of_string_valid]. Qed.

End PathStringFacts.

Section ValidatorFacts.

Import Pathlib FsSpec Validators.
Implicit Types (v : string) (w : World).

(** X4.  The string that the two directory validators return is the
    normalized path: normalizing it again changes nothing, and it names
    the same path as the value it came from. *)
Theorem normalized_idempotent v :
  normalized (normalized v) = normalized v
  /\ of_string (normalized v) = of_string v.
Proof.
  destruct (normalized_parse v) as [Hroot Hparts].
  split; [| done]. unfold normalized at 1. by rewrite Hroot, Hparts.
Qed.

(** X5.  [ensure_cache_directory] on a well-formed file system, for a
    cache path without a [..] component and with nothing in the way (no
    zero byte in the path, names and path within the limits on lengths,
    no regular file and no refusal of the operating system at the path
    or above it): it returns the normalized path, the cache path is a
    directory afterwards, every entry that existed is kept, and the
    state is the one before with the missing directories added to the
    file system. *)
Theorem ensure_cache_directory_makes_directory v w :
  well_formed (files w) ->
  plain (of_string v) ->
  clear (files w) (of_string v) = true ->
  exists w', ensure_cache_directory v w = (Returned (normalized v), w')
             /\ is_dir_in (files w') (of_string v) = true
             /\ files w ⊆ files w'
             /\ w' = set_files (make_dirs (of_string v) (files w)) w.
Proof.
  intros Hwf _ Hclear. unfold ensure_cache_directory, bind.
  rewrite (Path_mkdir_clear _ _ Hwf Hclear).
  eexists. split; [done |]. cbn [files set_files].
  split; [by apply make_dirs_is_dir |].
  split; [apply make_dirs_subseteq | done].
Qed.

(** X6.  [ensure_data_directory] on a well-formed file system, for a
    parent directory without a [..] component and with nothing in the
    way (no zero byte in its path, names and path within the limits on
    lengths, no regular file and no refusal of the operating system at
    it or above it): it returns the normalized path and the parent
    directory exists afterwards, but the database path itself is left as
    it was: the file is neither created nor replaced. *)
Theorem ensure_data_directory_makes_parent_only v w :
  well_formed (files w) ->
  plain (parent (of_string v)) ->
  clear (files w) (parent (of_string v)) = true ->
  exists w', ensure_data_directory v w = (Returned (normalized v), w')
             /\ is_dir_in (files w') (parent (of_string v)) = true
             /\ node_at (files w') (of_string v)
                = node_at (files w) (of_string v)
             /\ files w ⊆ files w'.
Proof.
  intros Hwf _ Hclear. unfold ensure_data_directory, bind.
  rewrite (Path_mkdir_clear _ _ Hwf Hclear).
  eexists. split; [done |]. cbn [files set_files].
  split; [by apply make_dirs_is_dir |].
  split; [| apply make_dirs_subseteq].
  destruct (of_string v) as [| name dir]; [done |].
  simpl. apply make_dirs_child.
Qed.

(** X7.  Validating a validated value is a no-op: when a directory
    validator has returned a path string, running it on that string in
    the state it left returns the same string and changes nothing. *)
Theorem directory_validators_idempotent v w s w1 :
  well_formed (files w) ->
  (ensure_cache_directory v w = (Returned s, w1) ->
   ensure_cache_directory s w1 = (Returned s, w1))
  /\
  (ensure_data_directory v w = (Returned s, w1) ->
   ensure_data_directory s w1 = (Returned s, w1)).
Proof.
  intros Hwf.
  destruct (normalized_parse v) as [Hroot Hparts].
  split.
  - unfold ensure_cache_directory, bind.
    destruct (Os.Path_mkdir true true (of_string v) w)
      as [[[] | e] w'] eqn:Hmk; [| done].
    destruct (Path_mkdir_grows _ _ _ _ Hwf Hmk)
      as (_ & _ & _ & _ & Hagain).
    intros [= <- <-]. fold (normalized v).
    rewrite Hparts, Hroot. by rewrite Hagain.
  - unfold ensure_data_directory, bind.
    destruct (Os.Path_mkdir true true (parent (of_string v)) w)
      as [[[] | e] w'] eqn:Hmk; [| done].
    destruct (Path_mkdir_grows _ _ _ _ Hwf Hmk)
      as (_ & _ & _ & _ & Hagain).
    intros [= <- <-]. fold (normalized v).
    rewrite Hparts, Hroot. by rewrite Hagain.
Qed.

End ValidatorFacts.

Section ValidatorWitnesses.

Import Pathlib FsSpec Validators.

Lemma plain_check (p : Path) :
  forallb (fun part => negb (String.eqb part "..")) p = true -> plain p.
Proof.
  intros Hall. apply Forall_forall. intros part Hin ->.
  rewrite forallb_forall in Hall.
  specialize (Hall ".." (proj1 (list_elem_of_In _ _) Hin)). done.
Qed.

Lemma ensure_cache_directory_makes_directory_witness :
  exists w',
    ensure_cache_directory "./cache/pages" Scenario.blank_world
      = (Returned "cache/pages", w')
    /\ is_dir_in (files w') ["pages"; "cache"] = true
    /\ files Scenario.blank_world ⊆ files w'
    /\ w' = set_files
              (make_dirs ["pages"; "cache"] (files Scenario.blank_world))
              Scenario.blank_world.
Proof.
  apply (ensure_cache_directory_makes_directory "./cache/pages"
           Scenario.blank_world blank_world_well_formed).
  - apply plain_check. vm_compute. reflexivity.
  - vm_compute. reflexivity.
Defined.

Lemma ensure_data_directory_makes_parent_only_witness :
  exists w',
    ensure_data_directory "./store/scientific_literature.db"
      Scenario.blank_world
      = (Returned "store/scientific_literature.db", w')
    /\ is_dir_in (files w') ["store"] = true
    /\ node_at (files w') ["scientific_literature.db"; "store"]
       = node_at (files Scenario.blank_world)
           ["scientific_literature.db"; "store"]
    /\ files Scenario.blank_world ⊆ files w'.
Proof.
  apply (ensure_data_directory_makes_parent_only
           "./store/scientific_literature.db" Scenario.blank_world
           blank_world_well_formed).
  - apply plain_check. vm_compute. reflexivity.
  - vm_compute. reflexivity.
Defined.

Lemma directory_validators_idempotent_witness :
  let w1 := snd (ensure_cache_directory "./cache//" Scenario.blank_world) in
  let w2 := snd (ensure_data_directory "data/./lit.db" Scenario.blank_world) in
  ensure_cache_directory "cache" w1 = (Returned "cache", w1)
  /\ ensure_data_directory "data/lit.db" w2 = (Returned "data/lit.db", w2).
Proof.
  split.
  - apply (proj1 (directory_validators_idempotent "./cache//"
                    Scenario.blank_world "cache" _
                    blank_world_well_formed)).
    vm_compute. reflexivity.
  - apply (proj2 (directory_validators_idempotent "data/./lit.db"
                    Scenario.blank_world "data/lit.db" _
                    blank_world_well_formed)).
    vm_compute. reflexivity.
Defined.

End ValidatorWitnesses.

(** ** The constructor of [DatabaseManager] *)

Section ConstructorFacts.

Import Pathlib FsSpec Validators.
Implicit Types (w : World).




End ConstructorFacts.

(** ** The random source *)

Section RandomFacts.

Import Process.
Implicit Types (s : State).

Lemma only_drew_refl s : only_drew s s.
Proof. done. Qed.

Lemma only_drew_trans s1 s2 s3 :
  only_drew s1 s2 -> only_drew s2 s3 -> only_drew s1 s3.
Proof.
  intros (Hw1 & Ho1 & Hd1) (Hw2 & Ho2 & Hd2).
  repeat split; congruence.
Qed.

Lemma next_draw_only_drew s :
  exists d s', next_draw s = (Returned d, s') /\ only_drew s s'.
Proof. eexists _, _. by split. Qed.

Lemma datetime_now_state s :
  liftW Os.datetime_now s = (Returned (clock (snd s)), s).
Proof. by destruct s. Qed.

(** [randint] on a non-empty range returns a number of the range. *)
Lemma randint_range (a b : Z) s :
  (a <= b)%Z ->
  exists v s', randint a b s = (Returned v, s')
               /\ (a <= v <= b)%Z /\ only_drew s s'.
Proof.
  intros Hab. unfold randint.
  destruct (Z.ltb_spec b a) as [Hlt | _]; [lia |].
  unfold bind. simpl. eexists _, _. split; [done |]. split; [| done].
  pose proof (Z.mod_pos_bound (Z.of_nat (draws (fst s) (drawn (fst s))))
                (b - a + 1)) as Hmod.
  lia.
Qed.

(** Taking [k] elements from a pool that has them returns [k] elements
    of the pool, none of them taken twice. *)
Lemma take_distinct_spec {A} (pool : list A) (k : nat) s :
  k <= length pool ->
  exists l s', take_distinct pool k s = (Returned l, s')
               /\ length l = k /\ l ⊆+ pool /\ only_drew s s'.
Proof.
  revert pool s. induction k as [| k IH]; intros pool s Hk.
  - eexists [], s. repeat split; [apply submseteq_nil_l | done..].
  - cbn [take_distinct]. unfold bind at 1.
    destruct (next_draw_only_drew s) as (d & s1 & -> & Hs1).
    assert (Hj : d mod length pool < length pool)
      by (apply Nat.mod_upper_bound; lia).
    destruct (lookup_lt_is_Some_2 pool _ Hj) as [x Hx]. rewrite Hx.
    destruct (IH (delete (d mod length pool) pool) s1) as
      (rest & s2 & Hrest & Hlen & Hsub & Hs2).
    { rewrite length_delete by eauto. lia. }
    unfold bind. rewrite Hrest. eexists _, _. split; [done |].
    split; [simpl; by rewrite Hlen |].
    split; [| by eapply only_drew_trans].
    rewrite (delete_Permutation pool _ x Hx). by apply submseteq_skip.
Qed.

(** [random.sample] with a size from [0] to the population's returns
    that many elements of the population, none taken twice. *)
Lemma sample_spec {A} (population : list A) (k : Z) s :
  (0 <= k <= Z.of_nat (length population))%Z ->
  exists l s', sample population k s = (Returned l, s')
               /\ length l = Z.to_nat k /\ l ⊆+ population
               /\ only_drew s s'.
Proof.
  intros Hk. unfold sample.
  destruct (Z.ltb_spec k 0) as [? | _]; [lia |].
  destruct (Z.ltb_spec (Z.of_nat (length population)) k) as [? | _];
    [lia |].
  simpl. apply take_distinct_spec. lia.
Qed.

(** A loop whose body always returns and keeps an invariant that counts
    the rounds returns, with the invariant at the number of items. *)
Lemma for_each_invariant {St X Acc} (Inv : nat -> Acc -> St -> Prop)
    (xs : list X) (body : X -> Acc -> M St Acc) :
  (forall n x acc st, Inv n acc st ->
     exists acc' st', body x acc st = (Returned acc', st')
                     /\ Inv (S n) acc' st') ->
  forall n acc st, Inv n acc st ->
  exists acc' st', for_each xs body acc st = (Returned acc', st')
                  /\ Inv (n + length xs) acc' st'.
Proof.
  intros Hbody. induction xs as [| x xs IH]; intros n acc st Hinv.
  - eexists _, _. split; [done |]. by rewrite Nat.add_0_r.
  - destruct (Hbody n x acc st Hinv) as (acc1 & st1 & Hstep & Hinv1).
    destruct (IH (S n) acc1 st1 Hinv1) as (acc2 & st2 & Hrest & Hinv2).
    eexists _, _. cbn [for_each]. unfold bind. rewrite Hstep.
    split; [exact Hrest |].
    simpl. by rewrite <- Nat.add_succ_comm.
Qed.

Lemma range_length (n : Z) : length (range n) = Z.to_nat n.
Proof. apply length_seqZ. Qed.

End RandomFacts.

(** ** The sample data generator *)

Section GeneratorFacts.

Import Process SampleDataGenerator.

Context {Date : Type} (date_of : Z -> Date) (year_of : Z -> Z).
Implicit Types (self : SampleDataGenerator.t) (s : State).

Lemma generate_authors_replicate self (num_authors : Z) :
  generate_authors self num_authors
    = replicate (Z.to_nat num_authors) (∅ : gmap string string).
Proof.
  unfold generate_authors. cbv zeta.
  rewrite <- range_length.
  assert (Hgen : forall (xs : list Z) (acc : list (gmap string string)),
    foldl (fun authors _ => (authors ++ [∅])%list) acc xs
      = (acc ++ replicate (length xs) ∅)%list).
  { induction xs as [| x xs IH]; intros acc; simpl.
    - by rewrite app_nil_r.
    - rewrite IH. by rewrite <- app_assoc. }
  apply Hgen.
Qed.

(** X12.  [generate_authors] returns as many profiles as asked for,
    none for a negative count, and every profile is the empty
    dictionary: no name, no affiliation. *)
Theorem generate_authors_empty_profiles self (num_authors : Z) :
  length (generate_authors self num_authors) = Z.to_nat num_authors
  /\ (num_authors <= 0 -> generate_authors self num_authors = [])%Z
  /\ Forall (fun author => author = ∅) (generate_authors self num_authors).
Proof.
  rewrite generate_authors_replicate. split; [apply length_replicate |].
  split.
  - intros Hneg. by replace (Z.to_nat num_authors) with 0 by lia.
  - by apply Forall_replicate.
Qed.

(** Every run of [generate_papers] returns: one paper for each round,
    with keywords taken from the vocabulary at distinct positions, as
    many as the drawn number from 3 to 7 allows the vocabulary to give;
    nothing but the count of drawn numbers changes. *)
Lemma generate_papers_spec self (num_papers : Z) s :
  let vocabulary := battery_keywords self in
  exists papers s',
    generate_papers Date date_of year_of self num_papers s
      = (Returned papers, s')
    /\ length papers = Z.to_nat num_papers
    /\ only_drew s s'
    /\ Forall (fun paper =>
         keywords Date paper ⊆+ vocabulary
         /\ 3 `min` length vocabulary <= length (keywords Date paper)
            <= 7 `min` length vocabulary) papers.
Proof.
  intros vocabulary. unfold generate_papers. cbv zeta.
  unfold bind at 1. rewrite datetime_now_state.
  pose (Inv := fun (n : nat) (papers : list (PaperData Date)) s' =>
    length papers = n /\ only_drew s s'
    /\ Forall (fun paper =>
         keywords Date paper ⊆+ vocabulary
         /\ 3 `min` length vocabulary <= length (keywords Date paper)
            <= 7 `min` length vocabulary) papers).
  assert (Hbody : forall n (x : Z) papers s1, Inv n papers s1 ->
    exists papers' s2,
      (let* num_keywords := randint 3 7 in
       let* paper_keywords :=
         sample (battery_keywords self)
           (Z.min num_keywords
              (Z.of_nat (length (battery_keywords self)))) in
       let* today := liftW Os.datetime_now in
       ret (papers ++ [{| title := ""; abstract := ""; authors := [];
                          publication_date := date_of today;
                          journal := ""; doi := ""; citation_count := 0;
                          keywords := paper_keywords |}])%list) s1
      = (Returned papers', s2) /\ Inv (S n) papers' s2).
  { intros n _ papers s1 (Hlen & Hdrew & Hall).
    destruct (randint_range 3 7 s1) as (k & s2 & Hk & Hrange & Hs2);
      [lia |].
    destruct (sample_spec vocabulary
                (Z.min k (Z.of_nat (length vocabulary))) s2)
      as (kw & s3 & Hkw & Hkwlen & Hsub & Hs3); [lia |].
    unfold bind. rewrite Hk. fold vocabulary. rewrite Hkw.
    rewrite datetime_now_state. eexists _, _. split; [done |].
    split; [rewrite length_app; simpl; lia |].
    split; [eauto using only_drew_trans |].
    apply Forall_app. split; [done |].
    apply Forall_singleton. cbn [keywords]. split; [done |].
    rewrite Hkwlen. lia. }
  destruct (for_each_invariant Inv (range num_papers) _ Hbody 0 [] s)
    as (papers & s' & Hrun & Hlen & Hdrew & Hall).
  { by repeat split. }
  exists papers, s'. rewrite range_length in Hlen.
  split; [exact Hrun |]. split; [exact Hlen |].
  split; [exact Hdrew | exact Hall].
Qed.

Lemma NoDup_submseteq_inv {A} (l k : list A) :
  l ⊆+ k -> NoDup k -> NoDup l.
Proof.
  intros Hsub Hk. apply submseteq_Permutation in Hsub as [k' Hperm].
  rewrite Hperm in Hk. by apply NoDup_app in Hk as [Hl _].
Qed.

(** X13.  [generate_papers] of a generator as [__init__] builds it never
    raises, whatever the random numbers are: the sample size is capped
    by the size of the vocabulary.  It returns one paper for each round
    (none for a negative count); every paper has from 3 to 5 keywords,
    all different and all from the vocabulary, an empty title and no
    authors; only the count of drawn numbers changes. *)
Theorem generate_papers_keywords (dbm : DatabaseManager.t)
    (num_papers : Z) s :
  exists papers s',
    generate_papers Date date_of year_of (__init__ dbm) num_papers s
      = (Returned papers, s')
    /\ length papers = Z.to_nat num_papers
    /\ only_drew s s'
    /\ Forall (fun paper =>
         3 <= length (keywords Date paper) <= 5
         /\ NoDup (keywords Date paper)
         /\ keywords Date paper ⊆ battery_keywords (__init__ dbm))
       papers.
Proof.
  destruct (generate_papers_spec (__init__ dbm) num_papers s)
    as (papers & s' & Hrun & Hlen & Hdrew & Hall).
  exists papers, s'. split; [exact Hrun |]. split; [exact Hlen |].
  split; [exact Hdrew |].
  eapply Forall_impl; [exact Hall |].
  intros paper [Hsub Hbounds]. simpl in Hbounds.
  split; [lia |]. split.
  - eapply NoDup_submseteq_inv; [exact Hsub |].
    apply (bool_decide_unpack _). by vm_compute.
  - intros x Hx. by eapply elem_of_submseteq.
Qed.

End GeneratorFacts.

Section PopulateFacts.

Import Process SampleDataGenerator.

Context {Date : Type} (date_of : Z -> Date) (year_of : Z -> Z).
Implicit Types (self : SampleDataGenerator.t) (s : State).

(** The network that [generate_citation_network] builds is empty. *)
Lemma generate_citation_network_spec {Id : Type} `{EqDecision Id}
    (id_truthy : Id -> bool) self (paper_ids : list Id) s :
  exists s',
    generate_citation_network id_truthy self paper_ids s
      = (Returned [], s')
    /\ only_drew s s'.
Proof.
  unfold generate_citation_network.
  pose (Inv := fun (_ : nat) (citations : list (@Citation Id)) s' =>
    citations = [] /\ only_drew s s').
  assert (Hinner : forall (xs : list Z) s1,
    for_each xs (fun (_ : Z) (citations : list (@Citation Id)) =>
                   ret (St := State) citations) [] s1
      = (Returned [], s1)).
  { induction xs as [| x xs IH]; intros s1; [done |].
    cbn [for_each]. unfold bind. simpl. apply IH. }
  assert (Hbody : forall n (citing_id : Id) citations s1,
    Inv n citations s1 ->
    exists citations' s2,
      (let* num_citations := randint 10 60 in
       for_each (range num_citations)
         (fun (_ : Z) (cs : list (@Citation Id)) => ret (St := State) cs)
         citations) s1
      = (Returned citations', s2) /\ Inv (S n) citations' s2).
  { intros n citing_id citations s1 [-> Hdrew].
    destruct (randint_range 10 60 s1) as (k & s2 & Hk & _ & Hs2); [lia |].
    unfold bind. rewrite Hk. rewrite Hinner.
    eexists _, _. split; [done |]. split; [done |].
    by eapply only_drew_trans. }
  destruct (for_each_invariant Inv paper_ids _ Hbody 0 [] s)
    as (citations & s' & Hrun & -> & Hdrew); [by split |].
  by exists s'.
Qed.

(** X14.  [generate_citation_network] returns no citation at all, for
    every list of paper identifiers, integers or titles, and whatever
    the random numbers are: the cited paper is never chosen.  It draws
    a number of citations for each paper and changes nothing else. *)
Theorem generate_citation_network_empty self
    (int_ids : list Z) (title_ids : list string) s :
  (exists s',
     generate_citation_network (fun i => negb (i =? 0)%Z) self int_ids s
       = (Returned [], s')
     /\ only_drew s s')
  /\ (exists s',
       generate_citation_network str_truthy self title_ids s
         = (Returned [], s')
       /\ only_drew s s').
Proof. split; apply generate_citation_network_spec. Qed.

(** [print] adds its line to the output and changes nothing else. *)
Lemma print_state (line : string) s :
  print line s
    = (Returned tt,
       ({| draws := draws (fst s); drawn := drawn (fst s);
           stdout := (stdout (fst s) ++ [line])%list |}, snd s)).
Proof. done. Qed.

(** One run of [populate_database]: the world is kept and seven lines
    are printed. *)
Lemma populate_database_spec self
    (num_authors num_papers : Z) s :
  exists s',
    populate_database Date date_of year_of self num_authors num_papers s
      = (Returned tt, s')
    /\ snd s' = snd s
    /\ stdout (fst s') =
         (stdout (fst s)
          ++ ["Generating " +:+ pretty num_authors +:+ " authors and "
                +:+ pretty num_papers +:+ " papers...";
              "Inserting authors...";
              "Inserting papers...";
              "Creating paper-author relationships...";
              "Generating citation network...";
              "Generating supplementary data...";
              "Successfully populated database with "
                +:+ pretty (Z.to_nat num_authors) +:+ " authors, "
                +:+ pretty (Z.to_nat num_papers) +:+ " papers, and "
                +:+ pretty 0 +:+ " citations."])%list.
Proof.
  unfold populate_database. unfold bind at 1. rewrite print_state.
  rewrite get_transaction_bare.
  unfold try_except_Exception, try_except. cbv zeta.
  rewrite generate_authors_replicate, length_replicate.
  unfold bind at 1. rewrite print_state.
  unfold bind at 1. unfold pass at 1, ret at 1.
  unfold bind at 1.
  match goal with
  | |- context [generate_papers _ _ _ _ _ ?st] =>
      destruct (generate_papers_spec date_of year_of self num_papers st)
        as (papers & s1 & Hpapers & Hlen & (Hw1 & Ho1 & Hd1) & _)
  end.
  rewrite Hpapers.
  unfold bind at 1. rewrite print_state.
  unfold bind at 1. unfold pass at 1, ret at 1.
  unfold bind at 1. rewrite print_state.
  unfold bind at 1. unfold pass at 1, ret at 1.
  unfold bind at 1. rewrite print_state.
  unfold bind at 1.
  match goal with
  | |- context [generate_citation_network _ _ ?ids ?st] =>
      destruct (generate_citation_network_spec str_truthy self ids st)
        as (s2 & Hcit & (Hw2 & Ho2 & Hd2))
  end.
  rewrite Hcit.
  unfold bind at 1. unfold pass at 1, ret at 1.
  unfold bind at 1. rewrite print_state.
  rewrite print_state.
  eexists. split; [done |]. cbn [fst snd stdout] in *.
  split; [congruence |].
  rewrite Ho2. cbn [stdout]. rewrite Ho1. cbn [stdout].
  rewrite Hlen. rewrite <- !app_assoc. done.
Qed.

(** X15.  [populate_database] stores nothing.  For every pair of counts
    and whatever the random numbers are, it returns, the world (files,
    tables, connections and the trace of connection calls) is exactly
    as before, and the only effect is seven lines of output, the last
    of which reports the number of generated authors and papers and
    zero citations. *)
Theorem populate_database_stores_nothing self
    (num_authors num_papers : Z) s :
  exists s',
    populate_database Date date_of year_of self num_authors num_papers s
      = (Returned tt, s')
    /\ snd s' = snd s
    /\ stdout (fst s') =
         (stdout (fst s)
          ++ ["Generating " +:+ pretty num_authors +:+ " authors and "
                +:+ pretty num_papers +:+ " papers...";
              "Inserting authors...";
              "Inserting papers...";
              "Creating paper-author relationships...";
              "Generating citation network...";
              "Generating supplementary data...";
              "Successfully populated database with "
                +:+ pretty (Z.to_nat num_authors) +:+ " authors, "
                +:+ pretty (Z.to_nat num_papers) +:+ " papers, and "
                +:+ pretty 0 +:+ " citations."])%list.
Proof. apply populate_database_spec. Qed.

(** X16.  [validate_generated_data] never looks at the database: in
    every state it returns zero totals, no issue and
    [referential_integrity] true, and changes nothing.  In particular it
    reports no author right after [populate_database] has reported
    having populated the database with the authors it generated. *)
Theorem validate_generated_data_blind self
    (num_authors num_papers : Z) s :
  validate_generated_data self s
    = (Returned {| total_authors := 0; total_papers := 0;
                   total_citations := 0; data_quality_issues := [];
                   referential_integrity := true |}, s)
  /\ total_authors <$>
       fst ((populate_database Date date_of year_of self
               num_authors num_papers ;;
             validate_generated_data self) s)
     = Returned 0%Z.
Proof.
  assert (Hblind : forall s1, validate_generated_data self s1
    = (Returned {| total_authors := 0; total_papers := 0;
                   total_citations := 0; data_quality_issues := [];
                   referential_integrity := true |}, s1)).
  { intros s1. unfold validate_generated_data. cbv zeta.
    unfold bind. by rewrite get_connection_bare. }
  split; [apply Hblind |].
  destruct (populate_database_spec self num_authors num_papers s)
    as (s' & Hpop & _).
  unfold bind. rewrite Hpop. by rewrite Hblind.
Qed.

End PopulateFacts.

(** ** More on the settings and on the initialization *)

Section MoreSettingsFacts.

Import Config.

(** X8.  Constructing a [Settings] value succeeds exactly when the
    environment is not a production one or, in production, the secret
    key was changed and [debug] is off; it then returns the value as it
    is.  Every other construction raises an exception of class
    [ValueError].  [model_post_init] itself checks the secret key
    first: when both checks fail, the error it raises is the one about
    the secret key. *)
Theorem settings_construct_succeeds_iff (s : Settings) :
  (Settings_construct s = Returned s <->
   ~ names_production (environment s)
   \/ (secret_key (security s) <> dev_secret_key /\ debug s = false))
  /\ (is_Returned (Settings_construct s) = false ->
      exists msg, Settings_construct s = Raised (ValueError msg))
  /\ (names_production (environment s) ->
      secret_key (security s) = dev_secret_key ->
      model_post_init s
        = Raised (ValueError "SECRET_KEY must be changed in production")).
Proof.
  unfold Settings_construct, model_post_init.
  destruct (is_production s) eqn:Hprod.
  - apply is_production_iff in Hprod.
    destruct (String.eqb_spec (secret_key (security s)) dev_secret_key)
      as [Hkey | Hkey].
    + split; [| split; [by eexists | done]].
      split; [done |]. intros [Hnot | [Hne _]]; done.
    + destruct (debug s) eqn:Hdebug.
      * split; [| split; [by eexists | done]].
        split; [done |]. intros [Hnot | [_ Hoff]]; done.
      * split; [| split; [done | done]].
        split; [| done]. intros _. by right.
  - apply is_production_false_iff in Hprod.
    split; [| split; [done | done]].
    split; [| done]. intros _. by left.
Qed.

Lemma settings_construct_succeeds_iff_witness :
  model_post_init
    {| environment := "PRODUCTION"; debug := true; log_level := "INFO";
       security := SecuritySettings_default |}
    = Raised (ValueError "SECRET_KEY must be changed in production")
  /\ (exists msg,
        Settings_construct prod_debug_settings = Raised (ValueError msg)).
Proof.
  split.
  - apply (proj2 (proj2 (settings_construct_succeeds_iff
                           {| environment := "PRODUCTION"; debug := true;
                              log_level := "INFO";
                              security := SecuritySettings_default |}))).
    + left. reflexivity.
    + reflexivity.
  - apply (proj1 (proj2 (settings_construct_succeeds_iff
                           prod_debug_settings))).
    reflexivity.
Defined.

(** X9.  No environment is both a development and a production one,
    whatever its letter case; some, like "staging", are neither. *)
Theorem development_and_production_exclusive (s : Settings) :
  ~ (is_development s = true /\ is_production s = true)
  /\ (eq_ignore_case (environment s) "staging" ->
      is_development s = false /\ is_production s = false).
Proof.
  unfold is_development, is_production, eq_ignore_case. split.
  - intros [Hdev Hprod].
    apply str_in_true in Hdev. apply str_in_true in Hprod.
    simpl in Hdev, Hprod.
    destruct Hdev as [Hdev | [Hdev | []]];
      destruct Hprod as [Hprod | [Hprod | []]];
      rewrite <- Hdev in Hprod; discriminate Hprod.
  - intros ->. by vm_compute.
Qed.

Lemma development_and_production_exclusive_witness :
  is_development
    {| environment := "Staging"; debug := false; log_level := "INFO";
       security := SecuritySettings_default |} = false
  /\ is_production
       {| environment := "Staging"; debug := false; log_level := "INFO";
          security := SecuritySettings_default |} = false.
Proof.
  apply (proj2 (development_and_production_exclusive
                  {| environment := "Staging"; debug := false;
                     log_level := "INFO";
                     security := SecuritySettings_default |})).
  reflexivity.
Defined.

End MoreSettingsFacts.

Section MoreInitFacts.

Import Pathlib FsSpec.
Implicit Types (w : World) (self : DatabaseManager.t).

(** X10.  Initialization can be repeated: on a well-formed file system,
    running [_initialize_database] again in the state the first run left
    gives the same outcome and changes nothing more. *)
Theorem initialize_database_repeatable self w :
  well_formed (files w) ->
  let first := DatabaseManager._initialize_database self w in
  DatabaseManager._initialize_database self (snd first) = first.
Proof. apply initialize_database_idempotent. Qed.

Lemma initialize_database_repeatable_witness :
  let first :=
    DatabaseManager._initialize_database Scenario.manager
      Scenario.blank_world in
  DatabaseManager._initialize_database Scenario.manager (snd first) = first.
Proof.
  exact (initialize_database_repeatable Scenario.manager
           Scenario.blank_world blank_world_well_formed).
Defined.

End MoreInitFacts.

Section GeneratorWitnesses.

Import SampleDataGenerator.

Lemma generate_authors_empty_profiles_witness :
  generate_authors (__init__ Scenario.manager) (-3) = [].
Proof.
  apply (proj1 (proj2 (generate_authors_empty_profiles
                         (__init__ Scenario.manager) (-3)))).
  lia.
Defined.

End GeneratorWitnesses.
